(** * The FTP fetch session of wpull (wpull/ftp/client.py)

    A shallow embedding of [Session] and of the collaborators it drives
    (connection pool, commander, body sink, recorder), followed by the
    properties of the session that the specification states. *)

From Stdlib Require Import ZArith String List Lia Bool.
From stdpp Require Import base option strings gmap.
Import ListNotations.

Local Open Scope string_scope.
Local Open Scope Z_scope.
Local Open Scope list_scope.

(** ** Data model *)

Definition Address : Type := string * Z.

(** A pooled connection object.  [ident] stands for the identity of the
    Python object; [address] is its [address] attribute. *)
Module Connection.
Record t : Type := mk { ident : nat; address : Address }.
End Connection.

#[global] Instance Connection_eq_dec : EqDecision Connection.t.
Proof. solve_decision. Defined.

(** [request.url_info]: the fields the session reads.  [username] and
    [password] are [None] when the URL carries no credentials. *)
Record URLInfo : Type := {
  scheme : string;
  hostname : string;
  port : Z;
  path : string;
  username : option string;
  password : option string
}.

Module Request.
Record t : Type := mk { url_info : URLInfo; address : option Address }.

Definition set_address (a : Address) (r : t) : t :=
  {| url_info := url_info r; address := Some a |}.
End Request.

Record Reply : Type := { code : Z; text : string }.

(** [Command(name, argument)] of wpull.ftp.request. *)
Record Command : Type := { name : string; argument : string }.

(** Modelled from the spec: the entries of a decoded listing (the listing
    parsers of wpull.ftp.util and wpull.ftp.ls are not part of the session);
    section 3 of the specification gives a name, a kind and an optional
    size. *)
Record FileEntry : Type := {
  entry_name : string;
  entry_kind : string;
  entry_size : option Z
}.

(** The body sink: a seekable, truncatable byte file.  [seek], [truncate],
    [write] and [read] follow Python's file objects: [truncate()] cuts at
    the current position, [write] overwrites from the current position and
    [read()] returns what lies after it. *)
Module Body.
Record t : Type := mk { content : list Byte.byte; position : nat }.

Definition empty : t := {| content := []; position := 0 |}.

Definition seek (n : nat) (b : t) : t :=
  {| content := content b; position := n |}.

Definition truncate (b : t) : t :=
  {| content := firstn (position b) (content b); position := position b |}.

Definition write (data : list Byte.byte) (b : t) : t :=
  {| content :=
       firstn (position b) (content b)
       ++ repeat Byte.x00 (position b - length (content b))
       ++ data
       ++ skipn (position b + length data) (content b);
     position := (position b + length data)%nat |}.

Definition read (b : t) : list Byte.byte * t :=
  (skipn (position b) (content b),
   {| content := content b;
      position := Nat.max (position b) (length (content b)) |}).
End Body.

(** [Response()] and [ListingResponse()] of wpull.ftp.request.  [request]
    refers to the request object by identity; the attributes are [None]
    until the session assigns them. *)
Module Response.
Record t : Type := mk {
  request : option nat;
  body : option Body.t;
  reply : option Reply;
  files : option (list FileEntry)
}.

Definition new : t :=
  {| request := None; body := None; reply := None; files := None |}.

Definition set_request (r : nat) (x : t) : t :=
  {| request := Some r; body := body x; reply := reply x; files := files x |}.
Definition set_body (b : Body.t) (x : t) : t :=
  {| request := request x; body := Some b; reply := reply x; files := files x |}.
Definition set_reply (r : Reply) (x : t) : t :=
  {| request := request x; body := body x; reply := Some r; files := files x |}.
Definition set_files (l : list FileEntry) (x : t) : t :=
  {| request := request x; body := body x; reply := reply x; files := Some l |}.
End Response.

(** The [file] argument of [fetch]: absent, a plain file object, or already
    a [Body]. *)
Inductive FileArg : Type :=
| FileNone
| FileRaw (f : Body.t)
| FileBody (f : Body.t).

Definition Callback : Type := Request.t -> Response.t -> FileArg.

(** ** Exceptions *)

Inductive exn : Type :=
| AssertionError
| AttributeError
| FTPServerError (reply_code : Z) (message : string)
| OtherError (class_name : string) (message : string).

Inductive Res (A : Type) : Type :=
| Ok (a : A)
| Raise (e : exn).
Arguments Ok {A} a.
Arguments Raise {A} e.

Definition is_FTPServerError (e : exn) : bool :=
  match e with
  | FTPServerError _ _ => true
  | _ => false
  end.

(** ** Calls on the collaborators

    Every call the session makes on the pool, on a connection or on the
    commander is recorded, in order.  The role says which connection of the
    session the call is about; the calls on the pool are recorded with what
    the pool answered. *)

Inductive role : Type := Control | Data.

#[global] Instance role_eq_dec : EqDecision role.
Proof. solve_decision. Defined.

Inductive event : Type :=
| EvCheckOut (r : role) (host : string) (port : Z) (result : Res Connection.t)
| EvCheckIn (r : role) (c : Connection.t) (result : Res unit)
| EvClose (r : role) (c : Connection.t)
| EvReconnect
| EvLogin (user pass : string)
| EvSetupDataStream
| EvDataConnect (c : Connection.t)
| EvReadStream (command : Command) (sink : option Body.t).

Inductive direction : Type := DirCommand | DirReply.

(** Calls received by the recorder session. *)
Inductive rec_event : Type :=
| RecBeginControl (request : nat)
| RecRequestControlData (data : list Byte.byte)
| RecResponseControlData (data : list Byte.byte)
| RecPreResponse (response : Response.t)
| RecResponseData (data : list Byte.byte)
| RecResponse (response : Response.t)
| RecEndControl (response : Response.t).

Definition RecorderSession : Type := list rec_event.

(** The closures the session registers on the streams' observers: the
    only handler ever added to a control stream is [control_data_callback],
    the only one added to a data stream is [data_callback]. *)
Inductive control_handler : Type := control_data_callback.
Inductive data_handler : Type := data_callback.

Record ControlStream : Type := {
  control_connection : Connection.t;
  control_observer : list control_handler
}.

Record DataStream : Type := {
  data_stream_connection : Connection.t;
  data_observer : list data_handler
}.

Record Commander : Type := { commander_connection : Connection.t }.

(** ** The session and the state it runs in

    An attribute holds an object or [None]; the session tests such
    attributes for truth ([if self._connection:]), which for these objects
    is the test for not being [None]. *)

Record Session : Type := {
  _connection : option Connection.t;
  _control_stream : option ControlStream;
  _commander : option Commander;
  _request : option nat;
  _recorder_session : option RecorderSession
}.

(** [Session.__init__], with the recorder that the base session was
    constructed with. *)
Definition new_session (recorder : option RecorderSession) : Session :=
  {| _connection := None; _control_stream := None; _commander := None;
     _request := None; _recorder_session := recorder |}.

(** The state a call runs in: the session object, the request objects (by
    identity, since the session, the response and the caller share them),
    the response object of the call in progress, and the calls made so far
    on the pool, the connections and the commander. *)
Record St : Type := {
  self : Session;
  requests : gmap nat Request.t;
  response : Response.t;
  trace : list event
}.

Definition set_self (f : Session -> Session) (s : St) : St :=
  {| self := f (self s); requests := requests s;
     response := response s; trace := trace s |}.
Definition set_requests (f : gmap nat Request.t -> gmap nat Request.t) (s : St) : St :=
  {| self := self s; requests := f (requests s);
     response := response s; trace := trace s |}.
Definition set_response (f : Response.t -> Response.t) (s : St) : St :=
  {| self := self s; requests := requests s;
     response := f (response s); trace := trace s |}.
Definition set_trace (f : list event -> list event) (s : St) : St :=
  {| self := self s; requests := requests s;
     response := response s; trace := f (trace s) |}.

Definition initial_state (recorder : option RecorderSession)
    (reqs : gmap nat Request.t) : St :=
  {| self := new_session recorder; requests := reqs;
     response := Response.new; trace := [] |}.

(** The local variables of [_fetch_with_command] that its nested
    [connection_factory] and its [finally] block share. *)
Record Locals : Type := {
  data_connection : option Connection.t;
  data_stream : option DataStream
}.

(** ** The environment

    The connection pool, the connections, the commander and the listing
    parsers are not part of the session; they are taken as a parameter.
    Each of them answers as a function of the calls the session has made
    so far, and may raise.  The recorder is not among these calls, so no
    answer depends on it.  The two reply codes are the constants of
    wpull.ftp.util.ReplyCodes that [fetch_file_listing] compares with. *)
Record Env : Type := {
  syntax_error_command_unrecognized : Z;
  command_not_implemented : Z;
  pool_check_out : list event -> string -> Z -> Res Connection.t;
  pool_check_in : list event -> Connection.t -> Res unit;
  connection_close : list event -> Connection.t -> Res unit;
  commander_reconnect : list event -> Res unit;
  commander_login : list event -> string -> string -> Res unit;
  commander_negotiate : list event -> Res Address;
  commander_connect : list event -> Connection.t -> Res unit;
  commander_read_stream : list event -> Command -> list Byte.byte * Res Reply;
  control_traffic : list event -> list (direction * list Byte.byte);
  parse_machine_listing : list Byte.byte -> list FileEntry;
  parse_list_listing : list Byte.byte -> Res (list FileEntry)
}.

(** ** A state and exception monad

    The state survives a raised exception, as mutation does in Python. *)

Definition M (T A : Type) : Type := T -> Res A * T.

Section Monad.
Context {T : Type}.

Definition ret {A} (a : A) : M T A := fun s => (Ok a, s).

Definition raise {A} (e : exn) : M T A := fun s => (Raise e, s).

Definition bind {A B} (m : M T A) (k : A -> M T B) : M T B :=
  fun s =>
    match m s with
    | (Ok a, s') => k a s'
    | (Raise e, s') => (Raise e, s')
    end.

Definition gets {A} (f : T -> A) : M T A := fun s => (Ok (f s), s).

Definition modify (f : T -> T) : M T unit := fun s => (Ok tt, f s).

(** [try: body finally: final]: [final] always runs; an exception it
    raises replaces the outcome of [body]. *)
Definition try_finally {A} (body : M T A) (final : M T unit) : M T A :=
  fun s =>
    match body s with
    | (r, s') =>
        match final s' with
        | (Ok _, s'') => (r, s'')
        | (Raise e, s'') => (Raise e, s'')
        end
    end.

(** [try: body except Cls as error: handler], [catches] deciding
    membership in [Cls]. *)
Definition try_except {A} (body : M T A) (catches : exn -> bool)
    (handler : exn -> M T A) : M T A :=
  fun s =>
    match body s with
    | (Ok a, s') => (Ok a, s')
    | (Raise e, s') => if catches e then handler e s' else (Raise e, s')
    end.

Definition assert_ (b : bool) : M T unit :=
  if b then ret tt else raise AssertionError.

Definition of_res {A} (r : Res A) : M T A := fun s => (r, s).
End Monad.

Declare Scope py_scope.
Delimit Scope py_scope with py.
Notation "x <- m ;; k" := (bind m (fun x => k))
  (at level 100, m at next level, k at level 200, right associativity) : py_scope.
Notation "m ;; k" := (bind m (fun _ => k))
  (at level 100, k at level 200, right associativity) : py_scope.
Open Scope py_scope.

(** Running a computation with a fresh frame of local variables. *)
Definition lift {L T A} (m : M T A) : M (L * T) A :=
  fun ls => match m (snd ls) with (r, s') => (r, (fst ls, s')) end.

Definition with_locals {L T A} (l0 : L) (m : M (L * T) A) : M T A :=
  fun s => match m (l0, s) with (r, ls) => (r, snd ls) end.

(** Python truthiness of an attribute holding an object or [None]. *)
Definition truthy {A} (o : option A) : bool :=
  match o with Some _ => true | None => false end.

(** [value or default] on an optional string: the default is taken when the
    value is [None] or the empty string. *)
Definition or_default (value : option string) (default : string) : string :=
  match value with
  | Some EmptyString => default
  | Some s => s
  | None => default
  end.

Fixpoint for_each {T A} (l : list A) (f : A -> M T unit) : M T unit :=
  match l with
  | [] => ret tt
  | x :: l' => f x;; for_each l' f
  end.

(** ** Attribute assignment on the session and on the local frame *)

Definition set__connection (c : option Connection.t) (x : Session) : Session :=
  {| _connection := c; _control_stream := _control_stream x;
     _commander := _commander x; _request := _request x;
     _recorder_session := _recorder_session x |}.
Definition set__control_stream (c : option ControlStream) (x : Session) : Session :=
  {| _connection := _connection x; _control_stream := c;
     _commander := _commander x; _request := _request x;
     _recorder_session := _recorder_session x |}.
Definition set__commander (c : option Commander) (x : Session) : Session :=
  {| _connection := _connection x; _control_stream := _control_stream x;
     _commander := c; _request := _request x;
     _recorder_session := _recorder_session x |}.
Definition set__request (r : option nat) (x : Session) : Session :=
  {| _connection := _connection x; _control_stream := _control_stream x;
     _commander := _commander x; _request := r;
     _recorder_session := _recorder_session x |}.
Definition set__recorder_session (r : option RecorderSession) (x : Session) : Session :=
  {| _connection := _connection x; _control_stream := _control_stream x;
     _commander := _commander x; _request := _request x;
     _recorder_session := r |}.

Definition set_data_connection (c : option Connection.t) (l : Locals) : Locals :=
  {| data_connection := c; data_stream := data_stream l |}.
Definition set_data_stream (d : option DataStream) (l : Locals) : Locals :=
  {| data_connection := data_connection l; data_stream := d |}.

Definition gets_local {T A} (f : Locals -> A) : M (Locals * T) A :=
  gets (fun ls => f (fst ls)).
Definition modify_local {T} (f : Locals -> Locals) : M (Locals * T) unit :=
  modify (fun ls => (f (fst ls), snd ls)).

(** [observer.add(callback)] and [observer.clear()]. *)
Definition control_observer_add (cb : control_handler) (cs : ControlStream) : ControlStream :=
  {| control_connection := control_connection cs;
     control_observer := control_observer cs ++ [cb] |}.
Definition data_observer_add (cb : data_handler) (ds : DataStream) : DataStream :=
  {| data_stream_connection := data_stream_connection ds;
     data_observer := data_observer ds ++ [cb] |}.
Definition data_observer_clear (ds : DataStream) : DataStream :=
  {| data_stream_connection := data_stream_connection ds; data_observer := [] |}.

(** ** The session *)

Section SessionModel.
Variable env : Env.

(** *** Primitive steps *)

Definition record (e : event) : M St unit :=
  modify (set_trace (fun tr => tr ++ [e])).

(** A method call on [self._recorder_session]. *)
Definition recorder_call (e : rec_event) : M St unit :=
  fun s =>
    match _recorder_session (self s) with
    | Some calls =>
        (Ok tt, set_self (set__recorder_session (Some (calls ++ [e]))) s)
    | None => (Raise AttributeError, s)
    end.

(** The two closures the session registers as observers.  The assertion
    of [control_data_callback] on its direction holds for both values of
    [direction]; [data_callback] is run for the ['read'] action. *)
Definition run_control_handler (cb : control_handler) (d : direction)
    (data : list Byte.byte) : M St unit :=
  match cb with
  | control_data_callback =>
      match d with
      | DirReply => recorder_call (RecResponseControlData data)
      | DirCommand => recorder_call (RecRequestControlData data)
      end
  end.

Definition run_data_handler (cb : data_handler) (data : list Byte.byte) : M St unit :=
  match cb with
  | data_callback => recorder_call (RecResponseData data)
  end.

(** The control stream tells its observers what the last commander call
    exchanged on the control connection. *)
Definition notify_control : M St unit :=
  tr <- gets trace;;
  cs <- gets (fun s => _control_stream (self s));;
  match cs with
  | Some stream =>
      for_each (control_traffic env tr)
        (fun item =>
           for_each (control_observer stream)
             (fun cb => run_control_handler cb (fst item) (snd item)))
  | None => ret tt
  end.

(** A call on an object outside the session: it is recorded, and answered
    from the calls made before it. *)
Definition external_call {A} (e : event) (answer : list event -> Res A) : M St A :=
  tr <- gets trace;;
  record e;;
  of_res (answer tr).

(** A method call on [self._commander]. *)
Definition commander_call {A} (e : event) (answer : list event -> Res A) : M St A :=
  cmd <- gets (fun s => _commander (self s));;
  match cmd with
  | None => raise AttributeError
  | Some _ =>
      tr <- gets trace;;
      record e;;
      notify_control;;
      of_res (answer tr)
  end.

(** [self._connection_pool.check_out(host, port)]. *)
Definition check_out (r : role) (host : string) (port : Z) : M St Connection.t :=
  tr <- gets trace;;
  record (EvCheckOut r host port (pool_check_out env tr host port));;
  of_res (pool_check_out env tr host port).

(** [self._connection_pool.check_in(connection)]. *)
Definition check_in (r : role) (c : Connection.t) : M St unit :=
  tr <- gets trace;;
  record (EvCheckIn r c (pool_check_in env tr c));;
  of_res (pool_check_in env tr c).

(** [connection.close()]. *)
Definition close_connection (r : role) (c : Connection.t) : M St unit :=
  external_call (EvClose r c) (fun tr => connection_close env tr c).

(** Dereferencing a request object.  An identity that names no object
    cannot arise in Python; the model reports it as an error. *)
Definition get_request (request : nat) : M St Request.t :=
  reqs <- gets requests;;
  match reqs !! request with
  | Some r => ret r
  | None => raise (OtherError "ReferenceError" "")
  end.

(** A method of [response.body] that updates the sink in place. *)
Definition body_op (f : Body.t -> Body.t) : M St unit :=
  b <- gets (fun s => Response.body (response s));;
  match b with
  | Some sink => modify (set_response (Response.set_body (f sink)))
  | None => raise AttributeError
  end.

(** [response.body.read()]. *)
Definition body_read : M St (list Byte.byte) :=
  b <- gets (fun s => Response.body (response s));;
  match b with
  | Some sink =>
      modify (set_response (Response.set_body (snd (Body.read sink))));;
      ret (fst (Body.read sink))
  | None => raise AttributeError
  end.

(** [if self._recorder_session: ...], in a method and in a frame with
    local variables. *)
Definition when_recorder (m : M St unit) : M St unit :=
  rec <- gets (fun s => _recorder_session (self s));;
  if truthy rec then m else ret tt.

Definition lift_when_recorder (m : M (Locals * St) unit) : M (Locals * St) unit :=
  rec <- gets (fun ls => _recorder_session (self (snd ls)));;
  if truthy rec then m else ret tt.

(** *** The commander's data-stream methods *)

(** Modelled from the spec: [Commander.setup_data_stream] (wpull.ftp.command
    is not among the sources).  It negotiates the address of the data
    channel on the control connection, acquires the data connection by
    calling the supplied factory once with that address, connects it and
    wraps it in a data stream; it may fail before the factory is called
    or after it has returned. *)
Definition setup_data_stream
    (connection_factory : Address -> M (Locals * St) Connection.t)
    : M (Locals * St) DataStream :=
  address <- lift (commander_call EvSetupDataStream (commander_negotiate env));;
  connection <- connection_factory address;;
  lift (external_call (EvDataConnect connection)
          (fun tr => commander_connect env tr connection));;
  ret {| data_stream_connection := connection; data_observer := [] |}.

(** Modelled from the spec: [Commander.read_stream(command, file,
    data_stream)] issues the command, copies the bytes of the data stream
    into the file, telling the stream's observers what was read, and
    returns the final reply or raises.  The file is [response.body] at
    every call site of the session. *)
Definition read_stream (command : Command) (stream : DataStream) : M St Reply :=
  tr <- gets trace;;
  sink <- gets (fun s => Response.body (response s));;
  commander_call (EvReadStream command sink) (fun _ => Ok tt);;
  match fst (commander_read_stream env tr command) with
  | [] => ret tt
  | data =>
      body_op (Body.write data);;
      for_each (data_observer stream) (fun cb => run_data_handler cb data)
  end;;
  of_res (snd (commander_read_stream env tr command)).

(** *** Session methods *)

Definition _init_stream (request : nat) : M St unit :=
  connection <- gets (fun s => _connection (self s));;
  assert_ (negb (truthy connection));;
  r <- get_request request;;
  c <- check_out Control (hostname (Request.url_info r)) (port (Request.url_info r));;
  modify (set_self (set__connection (Some c)));;
  modify (set_self (set__control_stream
    (Some {| control_connection := c; control_observer := [] |})));;
  modify (set_self (set__commander (Some {| commander_connection := c |})));;
  modify (set_self (set__request (Some request)));;
  when_recorder
    (modify (set_self (fun x =>
       set__control_stream
         (option_map (control_observer_add control_data_callback)
            (_control_stream x)) x))).

Definition _log_in : M St unit :=
  rq <- gets (fun s => _request (self s));;
  r <- match rq with
       | Some request => get_request request
       | None => raise AttributeError
       end;;
  let username := or_default (username (Request.url_info r)) "anonymous" in
  let password := or_default (password (Request.url_info r)) "-wpull@" in
  commander_call EvReconnect (commander_reconnect env);;
  commander_call (EvLogin username password)
    (fun tr => commander_login env tr username password).

Definition _prepare_fetch (request : nat) (file : FileArg)
    (callback : option Callback) : M St unit :=
  _init_stream request;;
  connection <- gets (fun s => _connection (self s));;
  match connection with
  | Some c =>
      modify (set_requests
        (alter (Request.set_address (Connection.address c)) request))
  | None => raise AttributeError
  end;;
  when_recorder (recorder_call (RecBeginControl request));;
  _log_in;;
  modify (set_response (Response.set_request request));;
  file <- match callback with
          | Some cb =>
              r <- get_request request;;
              resp <- gets response;;
              ret (cb r resp)
          | None => ret file
          end;;
  match file with
  | FileBody b => modify (set_response (Response.set_body b))
  | FileRaw f => modify (set_response (Response.set_body f))
  | FileNone => modify (set_response (Response.set_body Body.empty))
  end;;
  when_recorder
    (resp <- gets response;; recorder_call (RecPreResponse resp)).

Definition _clean_up_fetch (reply : Reply) : M St unit :=
  body_op (Body.seek 0);;
  modify (set_response (Response.set_reply reply));;
  when_recorder
    (resp <- gets response;; recorder_call (RecResponse resp));;
  when_recorder
    (resp <- gets response;; recorder_call (RecEndControl resp)).

Definition connection_factory (address : Address) : M (Locals * St) Connection.t :=
  c <- lift (check_out Data (fst address) (snd address));;
  modify_local (set_data_connection (Some c));;
  ret c.

(** The [file] argument is [response.body] at each of the three call
    sites; the streamed bytes go to that sink. *)
Definition _fetch_with_command (command : Command) : M St Reply :=
  with_locals {| data_connection := None; data_stream := None |}
    (try_finally
       (stream <- setup_data_stream connection_factory;;
        modify_local (set_data_stream (Some stream));;
        lift_when_recorder
          (modify_local (fun l =>
             set_data_stream
               (option_map (data_observer_add data_callback) (data_stream l)) l));;
        registered <- gets_local data_stream;;
        match registered with
        | Some ds => lift (read_stream command ds)
        | None => raise AttributeError
        end)
       (stream <- gets_local data_stream;;
        (if truthy stream
         then modify_local (fun l =>
                set_data_stream (option_map data_observer_clear (data_stream l)) l)
         else ret tt);;
        connection <- gets_local data_connection;;
        match connection with
        | Some c => lift (close_connection Data c);; lift (check_in Data c)
        | None => ret tt
        end)).

Definition _get_machine_listing (request : nat) : M St Reply :=
  r <- get_request request;;
  reply <- _fetch_with_command
             {| name := "MLSD"; argument := path (Request.url_info r) |};;
  body_op (Body.seek 0);;
  text <- body_read;;
  modify (set_response (Response.set_files (parse_machine_listing env text)));;
  ret reply.

Definition _get_list_listing (request : nat) : M St Reply :=
  r <- get_request request;;
  reply <- _fetch_with_command
             {| name := "LIST"; argument := path (Request.url_info r) |};;
  body_op (Body.seek 0);;
  text <- body_read;;
  listings <- of_res (parse_list_listing env text);;
  modify (set_response (Response.set_files listings));;
  ret reply.

Definition fetch (request : nat) (file : FileArg) (callback : option Callback)
    : M St Response.t :=
  modify (set_response (fun _ => Response.new));;
  _prepare_fetch request file callback;;
  r <- get_request request;;
  reply <- _fetch_with_command
             {| name := "RETR"; argument := path (Request.url_info r) |};;
  _clean_up_fetch reply;;
  gets response.

(** The reply code of a caught [FTPServerError]. *)
Definition reply_code_of (error : exn) : option Z :=
  match error with
  | FTPServerError c _ => Some c
  | _ => None
  end.

Definition fallback_codes : list Z :=
  [syntax_error_command_unrecognized env; command_not_implemented env].

(** [error.reply_code in (ReplyCodes.syntax_error_command_unrecognized,
    ReplyCodes.command_not_implemented)]. *)
Definition fallback_eligible (error : exn) : bool :=
  match reply_code_of error with
  | Some c => existsb (Z.eqb c) fallback_codes
  | None => false
  end.

Definition fetch_file_listing (request : nat) (file : FileArg)
    (callback : option Callback) : M St Response.t :=
  modify (set_response (fun _ => Response.new));;
  _prepare_fetch request file callback;;
  reply <- try_except (_get_machine_listing request) is_FTPServerError
             (fun error =>
                body_op (Body.seek 0);;
                body_op Body.truncate;;
                if fallback_eligible error
                then _get_list_listing request
                else raise error);;
  _clean_up_fetch reply;;
  gets response.

Definition clean : M St unit :=
  connection <- gets (fun s => _connection (self s));;
  match connection with
  | Some c => check_in Control c
  | None => ret tt
  end.

Definition close : M St unit :=
  connection <- gets (fun s => _connection (self s));;
  match connection with
  | Some c => close_connection Control c
  | None => ret tt
  end.

End SessionModel.

(** ** The filter report of the scripting hook (wpull/hook.py)

    [HookedWebProcessorSessionMixin._get_filter_info] reports to the
    script which URL filters accepted the URL and which rejected it.  The
    filters that [self._filter_url] returned are taken as the two
    arguments; [class_name] is [filter_instance.__class__.__name__].  The
    dictionary is first filled from the filters that passed, then from
    those that failed. *)

Section FilterInfo.
Context {Filter : Type}.
Variable class_name : Filter -> string.

Definition _get_filter_info (passed failed : list Filter) : gmap string bool :=
  let filter_info_dict : gmap string bool := ∅ in
  let filter_info_dict :=
    foldl (fun d filter_instance => <[class_name filter_instance := true]> d)
      filter_info_dict passed in
  foldl (fun d filter_instance => <[class_name filter_instance := false]> d)
    filter_info_dict failed.

End FilterInfo.

(** ** Vocabulary of the properties

    The relations, outcome descriptions and concrete collaborators that
    the lemmas and theorems below are stated with. *)

(** [R] relates every state a computation starts in to the state it ends
    in. *)
Definition stable {T A} (R : T -> T -> Prop) (m : M T A) : Prop :=
  forall s, R s (snd (m s)).

(** A relation on the state, seen from a frame with local variables. *)
Definition on_state {L T} (R : T -> T -> Prop) : L * T -> L * T -> Prop :=
  fun a b => R (snd a) (snd b).

(** The two states differ at most in the calls the recorder received. *)
Definition recorder_only (s s' : St) : Prop :=
  s' = set_self (set__recorder_session (_recorder_session (self s'))) s.

(** The response after [data] has been streamed into its body. *)
Definition streamed (data : list Byte.byte) (resp : Response.t) : Response.t :=
  match data, Response.body resp with
  | _ :: _, Some b => Response.set_body (Body.write data b) resp
  | _, _ => resp
  end.

(** The [finally] block of [_fetch_with_command] for an acquired data
    connection [c], run after the calls [tr]. *)
Inductive release (env : Env) (tr : list event) (c : Connection.t)
  : list event -> Prop :=
| release_close_raised e :
    connection_close env tr c = Raise e ->
    release env tr c [EvClose Data c]
| release_done :
    connection_close env tr c = Ok tt ->
    release env tr c
      [EvClose Data c;
       EvCheckIn Data c (pool_check_in env (tr ++ [EvClose Data c]) c)].

(** The outcomes of [_fetch_with_command command] from state [s]: the
    result, the calls it adds and the response it leaves. *)
Inductive transfer (env : Env) (command : Command) (s : St)
  : Res Reply -> list event -> Response.t -> Prop :=
| transfer_no_commander :
    _commander (self s) = None ->
    transfer env command s (Raise AttributeError) [] (response s)
| transfer_negotiation_failed e :
    transfer env command s (Raise e) [EvSetupDataStream] (response s)
| transfer_not_acquired host port e :
    transfer env command s (Raise e)
      [EvSetupDataStream; EvCheckOut Data host port (Raise e)] (response s)
| transfer_before_stream host port c e rel :
    release env
      (trace s ++ [EvSetupDataStream; EvCheckOut Data host port (Ok c);
                   EvDataConnect c]) c rel ->
    transfer env command s (Raise e)
      ([EvSetupDataStream; EvCheckOut Data host port (Ok c); EvDataConnect c]
       ++ rel) (response s)
| transfer_stream_failed host port c e rel resp :
    release env
      (trace s ++ [EvSetupDataStream; EvCheckOut Data host port (Ok c);
                   EvDataConnect c;
                   EvReadStream command (Response.body (response s))]) c rel ->
    resp = response s \/
    resp = streamed
             (fst (commander_read_stream env
                (trace s ++ [EvSetupDataStream; EvCheckOut Data host port (Ok c);
                             EvDataConnect c]) command))
             (response s) ->
    transfer env command s (Raise e)
      ([EvSetupDataStream; EvCheckOut Data host port (Ok c); EvDataConnect c;
        EvReadStream command (Response.body (response s))] ++ rel) resp
| transfer_done host port c reply :
    snd (commander_read_stream env
           (trace s ++ [EvSetupDataStream; EvCheckOut Data host port (Ok c);
                        EvDataConnect c]) command) = Ok reply ->
    transfer env command s (Ok reply)
      [EvSetupDataStream; EvCheckOut Data host port (Ok c); EvDataConnect c;
       EvReadStream command (Response.body (response s));
       EvClose Data c; EvCheckIn Data c (Ok tt)]
      (streamed
         (fst (commander_read_stream env
            (trace s ++ [EvSetupDataStream; EvCheckOut Data host port (Ok c);
                         EvDataConnect c]) command))
         (response s)).

(** The credentials [_log_in] sends for a request. *)
Definition login_username (r : Request.t) : string :=
  or_default (username (Request.url_info r)) "anonymous".
Definition login_password (r : Request.t) : string :=
  or_default (password (Request.url_info r)) "-wpull@".

(** The outcomes of [_prepare_fetch request] from state [s]: the result,
    the calls it adds and the state it leaves. *)
Inductive prepared (env : Env) (request : nat) (s : St)
  : Res unit -> list event -> St -> Prop :=
| prepared_refused e :
    prepared env request s (Raise e) [] s
| prepared_check_out_failed r e :
    _connection (self s) = None ->
    requests s !! request = Some r ->
    pool_check_out env (trace s)
      (hostname (Request.url_info r)) (port (Request.url_info r)) = Raise e ->
    prepared env request s (Raise e)
      [EvCheckOut Control (hostname (Request.url_info r))
         (port (Request.url_info r)) (Raise e)]
      (set_trace
         (fun tr => tr ++ [EvCheckOut Control (hostname (Request.url_info r))
                            (port (Request.url_info r)) (Raise e)]) s)
| prepared_connected r c res rest s' :
    _connection (self s) = None ->
    requests s !! request = Some r ->
    pool_check_out env (trace s)
      (hostname (Request.url_info r)) (port (Request.url_info r)) = Ok c ->
    rest `prefix_of` [EvReconnect; EvLogin (login_username r) (login_password r)] ->
    _connection (self s') = Some c ->
    _commander (self s') = Some {| commander_connection := c |} ->
    _request (self s') = Some request ->
    requests s' =
      alter (Request.set_address (Connection.address c)) request (requests s) ->
    (forall u, res = Ok u ->
       rest = [EvReconnect; EvLogin (login_username r) (login_password r)] /\
       is_Some (Response.body (response s')) /\
       Response.request (response s') = Some request) ->
    prepared env request s res
      (EvCheckOut Control (hostname (Request.url_info r))
         (port (Request.url_info r)) (Ok c) :: rest) s'.

(** The request objects and the session's connection, commander and
    request attributes are unchanged. *)
Definition keep (s s' : St) : Prop :=
  requests s' = requests s /\
  _connection (self s') = _connection (self s) /\
  _commander (self s') = _commander (self s) /\
  _request (self s') = _request (self s).

(** The calls made so far are extended by calls that satisfy [P]. *)
Definition extends (P : event -> Prop) (s s' : St) : Prop :=
  exists tail, trace s' = trace s ++ tail /\ Forall P tail.

(** The body of the response, once assigned, stays assigned. *)
Definition keeps_body (s s' : St) : Prop :=
  is_Some (Response.body (response s)) -> is_Some (Response.body (response s')).

(** The calls [_fetch_with_command] makes. *)
Definition transfer_event (e : event) : Prop :=
  match e with
  | EvSetupDataStream | EvCheckOut Data _ _ _ | EvDataConnect _
  | EvReadStream _ _ | EvClose Data _ | EvCheckIn Data _ _ => True
  | _ => False
  end.

(** [fetch] and [fetch_file_listing] after their preparation step. *)
Definition fetch_body (env : Env) (request : nat) : M St Response.t :=
  r <- get_request request;;
  reply <- _fetch_with_command env
             {| name := "RETR"; argument := path (Request.url_info r) |};;
  _clean_up_fetch reply;;
  gets response.

Definition listing_handler (env : Env) (request : nat) (error : exn) : M St Reply :=
  body_op (Body.seek 0);;
  body_op Body.truncate;;
  if fallback_eligible env error
  then _get_list_listing env request
  else raise error.

Definition listing_body (env : Env) (request : nat) : M St Response.t :=
  reply <- try_except (_get_machine_listing env request) is_FTPServerError
             (listing_handler env request);;
  _clean_up_fetch reply;;
  gets response.

Definition new_response (s : St) : St := set_response (fun _ => Response.new) s.

(** *** Connections the session holds

    A pool that counts outstanding check-outs sees, for each role, the
    connections handed out and not yet returned. *)
Fixpoint remove_first (c : Connection.t) (l : list Connection.t) : list Connection.t :=
  match l with
  | [] => []
  | x :: l' => if decide (x = c) then l' else x :: remove_first c l'
  end.

Definition held_step (r : role) (h : list Connection.t) (e : event)
    : list Connection.t :=
  match e with
  | EvCheckOut r' _ _ (Ok c) => if decide (r' = r) then c :: h else h
  | EvCheckIn r' c (Ok _) => if decide (r' = r) then remove_first c h else h
  | _ => h
  end.

Definition held (r : role) (tr : list event) : list Connection.t :=
  fold_left (held_step r) tr [].

(** The calls a method added to those made before it. *)
Definition new_calls (s s' : St) : list event :=
  skipn (length (trace s)) (trace s').

(** *** Concrete collaborators

    A server and a pool on which the session can be run: the pool hands
    out fresh connections and refuses to take back a connection that is
    not checked out; the server sends three bytes of a machine listing and
    then rejects [MLSD] with the reply code [mlsd_code], and sends five
    bytes and then [others] for every other command. *)
Definition sample_url : URLInfo :=
  {| scheme := "ftp"; hostname := "ftp.example.com"; port := 21;
     path := "/pub"; username := None; password := None |}.

Definition sample_request : Request.t :=
  {| Request.url_info := sample_url; Request.address := None |}.

Definition sample_requests : gmap nat Request.t := {[ 0%nat := sample_request ]}.



Definition strict_check_in (tr : list event) (c : Connection.t) : Res unit :=
  if bool_decide (c ∈ held Control tr ++ held Data tr)
  then Ok tt
  else Raise (OtherError "KeyError" "").

Definition sample_read_stream (mlsd_code : Z) (others : Res Reply)
    (tr : list event) (command : Command) : list Byte.byte * Res Reply :=
  if String.eqb (name command) "MLSD"
  then ([Byte.x61; Byte.x62; Byte.x63],
        Raise (FTPServerError mlsd_code "MLSD rejected."))
  else ([Byte.x68; Byte.x65; Byte.x6c; Byte.x6c; Byte.x6f], others).

Definition transfer_complete : Res Reply :=
  Ok {| code := 226; text := "Transfer complete." |}.

Definition server_env (mlsd_code : Z) (others : Res Reply) : Env :=
  {| syntax_error_command_unrecognized := 500;
     command_not_implemented := 502;
     pool_check_out := fun tr host port =>
       Ok {| Connection.ident := length tr; Connection.address := (host, port) |};
     pool_check_in := strict_check_in;
     connection_close := fun _ _ => Ok tt;
     commander_reconnect := fun _ => Ok tt;
     commander_login := fun _ _ _ => Ok tt;
     commander_negotiate := fun _ => Ok ("192.0.2.1", 2020);
     commander_connect := fun _ _ => Ok tt;
     commander_read_stream := sample_read_stream mlsd_code others;
     control_traffic := fun _ => [(DirCommand, [Byte.x41]); (DirReply, [Byte.x42])];
     parse_machine_listing := fun _ => [];
     parse_list_listing := fun _ => Ok [] |}.

(** The server answers [MLSD] with "command not implemented". *)
Definition sample_env : Env := server_env 502 transfer_complete.

(** The server answers [MLSD] with "file unavailable". *)
Definition refusing_env : Env := server_env 550 transfer_complete.

(** The server implements neither [MLSD] nor, in the end, [LIST]. *)
Definition failing_env : Env :=
  server_env 502 (Raise (FTPServerError 451 "Local error in processing.")).

(** The state a session without recorder is left in by a successful
    [fetch]. *)
Definition after_fetch : St :=
  snd (fetch sample_env 0%nat FileNone None (initial_state None sample_requests)).

Definition control_check_out_of (e : event) : option Connection.t :=
  match e with
  | EvCheckOut Control _ _ (Ok c) => Some c
  | _ => None
  end.

(** The control connections the pool handed to the session, in order. *)
Definition control_check_outs (tr : list event) : list Connection.t :=
  omap control_check_out_of tr.

Definition no_control_check_out (e : event) : Prop :=
  control_check_out_of e = None.

(** The session's [_connection] attribute is the one control connection
    it was ever handed, if any. *)
Definition owns_its_check_outs (s : St) : Prop :=
  control_check_outs (trace s) =
  match _connection (self s) with
  | Some c => [c]
  | None => []
  end.

(** The public methods of a session. *)
Inductive call : Type :=
| CallFetch (request : nat) (file : FileArg) (callback : option Callback)
| CallFetchFileListing (request : nat) (file : FileArg) (callback : option Callback)
| CallClean
| CallClose.

Definition run_call (env : Env) (c : call) (s : St) : St :=
  match c with
  | CallFetch request file callback => snd (fetch env request file callback s)
  | CallFetchFileListing request file callback =>
      snd (fetch_file_listing env request file callback s)
  | CallClean => snd (clean env s)
  | CallClose => snd (close env s)
  end.

(** A caller that goes on after any outcome of each call. *)
Definition run_calls (env : Env) (cs : list call) (s : St) : St :=
  fold_left (fun s c => run_call env c s) cs s.

(** What a call may do to the request objects: nothing but assigning the
    [address] attribute of the request it was given. *)
Definition only_address_assigned (request : nat) (s s' : St) : Prop :=
  (forall k, Request.url_info <$> requests s' !! k
             = Request.url_info <$> requests s !! k) /\
  (forall k, k <> request -> requests s' !! k = requests s !! k) /\
  (requests s' !! request = requests s !! request \/
   exists c, _connection (self s') = Some c /\
     requests s' !! request
     = Request.set_address (Connection.address c) <$> requests s !! request) /\
  (forall c, _connection (self s) = None -> _connection (self s') = Some c ->
     requests s' !! request
     = Request.set_address (Connection.address c) <$> requests s !! request).



(** The contract of the collaborators that release relies on: closing a
    connection returns normally, and the pool takes back a data connection
    that is checked out. *)
Definition releases_normally (env : Env) : Prop :=
  (forall tr c, connection_close env tr c = Ok tt) /\
  (forall tr c, In c (held Data tr) -> pool_check_in env tr c = Ok tt).

Definition held_same (s s' : St) : Prop :=
  held Data (trace s') = held Data (trace s).

(** What [_fetch_with_command] adds to the calls when release goes
    normally: either no data connection is acquired and nothing is closed
    or checked in, or the one acquired is closed and then checked in as
    the last two calls. *)
Inductive released_tail : list event -> Prop :=
| released_nothing tail :
    (forall host port c, ~ In (EvCheckOut Data host port (Ok c)) tail) ->
    (forall r c, ~ In (EvClose r c) tail) ->
    (forall r c res, ~ In (EvCheckIn r c res) tail) ->
    Forall (fun e => forall h, held_step Data h e = h) tail ->
    released_tail tail
| released_acquired host port c between :
    Forall (fun e => forall h, held_step Data h e = h) between ->
    (forall host' port' c', ~ In (EvCheckOut Data host' port' (Ok c')) between) ->
    released_tail
      ([EvSetupDataStream; EvCheckOut Data host port (Ok c)] ++ between
       ++ [EvClose Data c; EvCheckIn Data c (Ok tt)]).

(** The response body after [seek(0)] and [truncate()]. *)
Definition reset_sink (s : St) : St :=
  set_response (Response.set_body Body.empty) s.

(** The steps of [_get_list_listing] after its data transfer. *)
Definition list_finish (env : Env) (reply : Reply) : M St Reply :=
  body_op (Body.seek 0);;
  text <- body_read;;
  listings <- of_res (parse_list_listing env text);;
  modify (set_response (Response.set_files listings));;
  ret reply.

Definition list_command (r : Request.t) : Command :=
  {| name := "LIST"; argument := path (Request.url_info r) |}.

Definition same_trace (s s' : St) : Prop := trace s' = trace s.

(** The number of data transfers started among some calls. *)
Definition is_setup (e : event) : bool :=
  match e with
  | EvSetupDataStream => true
  | _ => false
  end.

Definition attempts (tail : list event) : nat := length (List.filter is_setup tail).

(** The situation the fallback is about: the preparation succeeded and the
    machine-listing attempt raised a server-reply error. *)
Definition machine_listing_failed env request file callback
    (s s2 : St) (code : Z) (msg : string) : Prop :=
  exists s1,
    _prepare_fetch env request file callback (new_response s) = (Ok tt, s1) /\
    _get_machine_listing env request s1 = (Raise (FTPServerError code msg), s2).

(** The state after the preparation of a listing, and after the failed
    machine-listing attempt, on a server [env]. *)
Definition sample_prepared (env : Env) : St :=
  snd (_prepare_fetch env 0%nat FileNone None
         (new_response (initial_state None sample_requests))).

Definition sample_failed (env : Env) : St :=
  snd (_get_machine_listing env 0%nat (sample_prepared env)).

Definition erase_control_stream (cs : ControlStream) : ControlStream :=
  {| control_connection := control_connection cs; control_observer := [] |}.

(** The session as it is when no recorder is configured: no recorder
    session, and no handler registered on the control stream. *)
Definition erase_session (x : Session) : Session :=
  {| _connection := _connection x;
     _control_stream := option_map erase_control_stream (_control_stream x);
     _commander := _commander x;
     _request := _request x;
     _recorder_session := None |}.

Definition erase (s : St) : St := set_self erase_session s.

(** A recorder is configured. *)
Definition recording (s : St) : Prop := is_Some (_recorder_session (self s)).

(** No handler is registered on the control stream. *)
Definition no_control_handler (s : St) : Prop :=
  match _control_stream (self s) with
  | Some stream => control_observer stream = []
  | None => True
  end.

(** A computation that the recorder only observes: run on the session
    without recorder it gives the same result and the same state, the
    recorder apart. *)
Definition unobserved {A} (m : M St A) : Prop :=
  forall s, recording s ->
    recording (snd (m s)) /\
    m (erase s) = (fst (m s), erase (snd (m s))).

(** *** Outcomes in terms of the collaborators' answers

    What [_prepare_fetch] and [_fetch_with_command] return and which calls
    they make, written as functions of the answers of the pool, the
    connections and the commander alone. *)

(** The sink [_prepare_fetch] installs as [response.body]: the file it was
    given, wrapped in a body if it is not one, or a new body. *)
Definition sink_of (file : FileArg) : Body.t :=
  match file with
  | FileBody b => b
  | FileRaw f => f
  | FileNone => Body.empty
  end.

(** The file [_prepare_fetch] uses: what the callback returns for the
    request, with its address assigned, and the response, with its request
    assigned, or else the [file] argument. *)
Definition chosen_file (request : nat) (file : FileArg) (callback : option Callback)
    (r : Request.t) (c : Connection.t) (resp : Response.t) : FileArg :=
  match callback with
  | Some cb =>
      cb (Request.set_address (Connection.address c) r)
         (Response.set_request request resp)
  | None => file
  end.

(** The response after a successful preparation. *)
Definition prepared_response (request : nat) (file : FileArg)
    (callback : option Callback) (r : Request.t) (c : Connection.t)
    (resp : Response.t) : Response.t :=
  Response.set_body (sink_of (chosen_file request file callback r c resp))
    (Response.set_request request resp).

(** The result of [_prepare_fetch] and the calls it makes: the assertion
    of [_init_stream], then the check-out of the control connection, the
    reconnect and the login, up to the first that raises. *)
Definition preparation (env : Env) (request : nat) (s : St) : Res unit * list event :=
  match _connection (self s) with
  | Some _ => (Raise AssertionError, [])
  | None =>
      match requests s !! request with
      | None => (Raise (OtherError "ReferenceError" ""), [])
      | Some r =>
          let host := hostname (Request.url_info r) in
          let port := port (Request.url_info r) in
          match pool_check_out env (trace s) host port with
          | Raise e => (Raise e, [EvCheckOut Control host port (Raise e)])
          | Ok c =>
              let check_out := EvCheckOut Control host port (Ok c) in
              match commander_reconnect env (trace s ++ [check_out]) with
              | Raise e => (Raise e, [check_out; EvReconnect])
              | Ok _ =>
                  (commander_login env (trace s ++ [check_out; EvReconnect])
                     (login_username r) (login_password r),
                   [check_out; EvReconnect;
                    EvLogin (login_username r) (login_password r)])
              end
          end
      end
  end.

(** The [finally] block of [_fetch_with_command] for an acquired data
    connection [c], entered after the calls [tr] with the outcome [result]
    of the [try] block: an error of [close()] or of [check_in] replaces
    that outcome, and after an error of [close()] nothing is checked in. *)
Definition released (env : Env) (tr : list event) (c : Connection.t)
    (result : Res Reply) : Res Reply * list event :=
  match connection_close env tr c with
  | Raise e => (Raise e, [EvClose Data c])
  | Ok _ =>
      match pool_check_in env (tr ++ [EvClose Data c]) c with
      | Raise e => (Raise e, [EvClose Data c; EvCheckIn Data c (Raise e)])
      | Ok u => (result, [EvClose Data c; EvCheckIn Data c (Ok u)])
      end
  end.

Definition after_calls (calls : list event) (out : Res Reply * list event)
    : Res Reply * list event :=
  (fst out, calls ++ snd out).

(** The result of [_fetch_with_command command] and the calls it makes,
    after the calls [tr] and with [sink] as the response body: the
    negotiation of the data channel, the check-out of the data connection,
    its connection and the transfer, up to the first that raises, and then
    the release of the data connection if one was acquired. *)
Definition transfer_outcome (env : Env) (command : Command) (tr : list event)
    (sink : option Body.t) : Res Reply * list event :=
  match commander_negotiate env tr with
  | Raise e => (Raise e, [EvSetupDataStream])
  | Ok address =>
      match pool_check_out env (tr ++ [EvSetupDataStream])
              (fst address) (snd address) with
      | Raise e =>
          (Raise e,
           [EvSetupDataStream;
            EvCheckOut Data (fst address) (snd address) (Raise e)])
      | Ok c =>
          let acquire :=
            [EvSetupDataStream;
             EvCheckOut Data (fst address) (snd address) (Ok c)] in
          match commander_connect env (tr ++ acquire) c with
          | Raise e =>
              after_calls (acquire ++ [EvDataConnect c])
                (released env (tr ++ acquire ++ [EvDataConnect c]) c (Raise e))
          | Ok _ =>
              after_calls (acquire ++ [EvDataConnect c; EvReadStream command sink])
                (released env
                   (tr ++ acquire ++ [EvDataConnect c; EvReadStream command sink]) c
                   (snd (commander_read_stream env
                           (tr ++ acquire ++ [EvDataConnect c]) command)))
          end
      end
  end.

(** The state [_prepare_fetch] leaves for the data transfer: there is a
    commander, the response has a body, and a handler is registered on the
    control stream only if there is a recorder to call. *)
Definition ready (s : St) : Prop :=
  is_Some (_commander (self s)) /\
  is_Some (Response.body (response s)) /\
  (recording s \/ no_control_handler s).

Definition retr_command (r : Request.t) : Command :=
  {| name := "RETR"; argument := path (Request.url_info r) |}.

Definition mlsd_command (r : Request.t) : Command :=
  {| name := "MLSD"; argument := path (Request.url_info r) |}.

(** The sink after [data] has been streamed into it. *)
Definition received (data : list Byte.byte) (sink : Body.t) : Body.t :=
  match data with
  | [] => sink
  | _ :: _ => Body.write data sink
  end.

(** The sink once it has been read from its start to its end. *)
Definition read_through (b : Body.t) : Body.t :=
  {| Body.content := Body.content b; Body.position := length (Body.content b) |}.

(** The steps of [_get_machine_listing] after its data transfer. *)
Definition machine_finish (env : Env) (reply : Reply) : M St Reply :=
  body_op (Body.seek 0);;
  text <- body_read;;
  modify (set_response (Response.set_files (parse_machine_listing env text)));;
  ret reply.

Definition same_control_stream (s s' : St) : Prop :=
  _control_stream (self s') = _control_stream (self s).

(** Collaborators that never raise: every call on the pool, on a
    connection and on the commander returns, and the pool takes back a
    data connection that is checked out. *)
Definition answers_normally (env : Env) : Prop :=
  (forall tr host port, exists c, pool_check_out env tr host port = Ok c) /\
  (forall tr, commander_reconnect env tr = Ok tt) /\
  (forall tr u p, commander_login env tr u p = Ok tt) /\
  (forall tr, exists address, commander_negotiate env tr = Ok address) /\
  (forall tr c, commander_connect env tr c = Ok tt) /\
  (forall tr command,
     exists reply, snd (commander_read_stream env tr command) = Ok reply) /\
  releases_normally env.

(** The calls that give the control connection up. *)
Definition control_release (e : event) : Prop :=
  match e with
  | EvCheckIn Control _ _ | EvClose Control _ => True
  | _ => False
  end.

(** A call that neither gives the control connection up nor changes the
    control connections the pool counts as handed out. *)
Definition control_neutral (e : event) : Prop :=
  ~ control_release e /\ forall h, held_step Control h e = h.

(** A computation that starts at most [n] data transfers. *)
Definition bounded {A} (n : nat) (m : M St A) : Prop :=
  forall s, exists tail,
    trace (snd (m s)) = trace s ++ tail /\ (attempts tail <= n)%nat.

(** The two calls that end a recorded exchange. *)
Definition closing (e : rec_event) : bool :=
  match e with
  | RecResponse _ | RecEndControl _ => true
  | _ => false
  end.

(** The recorder, if there is one, received further calls, all of which
    satisfy [Q]. *)
Definition records (Q : rec_event -> Prop) (s s' : St) : Prop :=
  forall calls, _recorder_session (self s) = Some calls ->
    exists more,
      _recorder_session (self s') = Some (calls ++ more) /\ Forall Q more.

(** *** Collaborators of which one is out of order

    A server and a pool like those above, except that the server accepts
    every command and that every call on one collaborator raises. *)
Inductive fault : Type :=
| NoFault
| FaultCheckOut
| FaultReconnect
| FaultLogin
| FaultNegotiate
| FaultClose
| FaultCheckIn.

Definition network_error : exn := OtherError "NetworkError" "Connection reset.".

Definition login_incorrect : exn := FTPServerError 530 "Login incorrect.".

Definition faulty_env (f : fault) : Env :=
  {| syntax_error_command_unrecognized := 500;
     command_not_implemented := 502;
     pool_check_out := fun tr host port =>
       match f with
       | FaultCheckOut => Raise network_error
       | _ => Ok {| Connection.ident := length tr;
                    Connection.address := (host, port) |}
       end;
     pool_check_in := fun tr c =>
       match f with
       | FaultCheckIn => Raise network_error
       | _ => strict_check_in tr c
       end;
     connection_close := fun _ _ =>
       match f with
       | FaultClose => Raise network_error
       | _ => Ok tt
       end;
     commander_reconnect := fun _ =>
       match f with
       | FaultReconnect => Raise network_error
       | _ => Ok tt
       end;
     commander_login := fun _ _ _ =>
       match f with
       | FaultLogin => Raise login_incorrect
       | _ => Ok tt
       end;
     commander_negotiate := fun _ =>
       match f with
       | FaultNegotiate => Raise network_error
       | _ => Ok ("192.0.2.1", 2020)
       end;
     commander_connect := fun _ _ => Ok tt;
     commander_read_stream := fun _ _ =>
       ([Byte.x68; Byte.x65; Byte.x6c; Byte.x6c; Byte.x6f], transfer_complete);
     control_traffic := fun _ => [(DirCommand, [Byte.x41]); (DirReply, [Byte.x42])];
     parse_machine_listing := fun _ => [];
     parse_list_listing := fun _ => Ok [] |}.

(** A new session without recorder, and the control and the data
    connection that these pools hand to it. *)
Definition new_state : St := initial_state None sample_requests.

Definition sample_control : Connection.t :=
  {| Connection.ident := 0; Connection.address := ("ftp.example.com", 21) |}.

Definition sample_data : Connection.t :=
  {| Connection.ident := 4; Connection.address := ("192.0.2.1", 2020) |}.

(** A callback that supplies a file holding one byte, positioned after
    it. *)
Definition sample_callback : Callback :=
  fun _ _ => FileBody {| Body.content := [Byte.x2d]; Body.position := 1 |}.

(** The state a session without recorder is left in by a successful
    [fetch_file_listing]. *)
Definition after_listing : St :=
  snd (fetch_file_listing sample_env 0%nat FileNone None new_state).

(** ** Reasoning about runs *)

Lemma bind_run {T A B} (m : M T A) (k : A -> M T B) (s : T) :
  bind m k s =
  match m s with
  | (Ok a, s') => k a s'
  | (Raise e, s') => (Raise e, s')
  end.
Proof. reflexivity. Qed.

Lemma bind_ok {T A B} (m : M T A) (k : A -> M T B) s a s' :
  m s = (Ok a, s') -> bind m k s = k a s'.
Proof. intros H. unfold bind. rewrite H. reflexivity. Qed.

Lemma bind_raise {T A B} (m : M T A) (k : A -> M T B) s e s' :
  m s = (Raise e, s') -> bind m k s = (Raise e, s').
Proof. intros H. unfold bind. rewrite H. reflexivity. Qed.

(** A run of [bind m k] either stops where [m] raised or continues with [k]. *)
Lemma bind_inv {T A B} (m : M T A) (k : A -> M T B) s r s' :
  bind m k s = (r, s') ->
  (exists e, m s = (Raise e, s') /\ r = Raise e) \/
  (exists a s1, m s = (Ok a, s1) /\ k a s1 = (r, s')).
Proof.
  unfold bind. destruct (m s) as [[a|e] s1]; intros H.
  - right. eauto.
  - left. inversion H; subst. eauto.
Qed.

(** *** Relations that every step of a computation respects *)

Section Stable.
Context {T : Type} (R : T -> T -> Prop) {HR : PreOrder R}.

Lemma stable_ret {A} (a : A) : stable R (ret a).
  Proof. intros s. reflexivity. Qed.

Lemma stable_raise {A} (e : exn) : stable R (@raise T A e).
  Proof. intros s. reflexivity. Qed.

Lemma stable_gets {A} (f : T -> A) : stable R (gets f).
  Proof. intros s. reflexivity. Qed.

Lemma stable_of_res {A} (r : Res A) : stable R (@of_res T A r).
  Proof. intros s. reflexivity. Qed.

Lemma stable_assert (b : bool) : stable R (@assert_ T b).
  Proof. destruct b; intros s; reflexivity. Qed.

Lemma stable_modify (f : T -> T) : (forall s, R s (f s)) -> stable R (modify f).
  Proof. intros H s. apply H. Qed.

Lemma stable_bind {A B} (m : M T A) (k : A -> M T B) :
    stable R m -> (forall a, stable R (k a)) -> stable R (bind m k).
  Proof.
    intros Hm Hk s. unfold bind. specialize (Hm s).
    destruct (m s) as [[a|e] s1]; simpl in *; [|exact Hm].
    etransitivity; [exact Hm|apply Hk].
  Qed.

Lemma stable_try_finally {A} (body : M T A) (final : M T unit) :
    stable R body -> stable R final -> stable R (try_finally body final).
  Proof.
    intros Hb Hf s. unfold try_finally. specialize (Hb s).
    destruct (body s) as [r s1]; simpl in *. specialize (Hf s1).
    destruct (final s1) as [[u|e] s2]; simpl in *; etransitivity; eauto.
  Qed.

Lemma stable_try_except {A} (body : M T A) catches (handler : exn -> M T A) :
    stable R body -> (forall e, stable R (handler e)) ->
    stable R (try_except body catches handler).
  Proof.
    intros Hb Hh s. unfold try_except. specialize (Hb s).
    destruct (body s) as [[a|e] s1]; simpl in *; [exact Hb|].
    destruct (catches e); [|exact Hb].
    etransitivity; [exact Hb|apply Hh].
  Qed.

Lemma stable_for_each {A} (l : list A) (f : A -> M T unit) :
    (forall a, stable R (f a)) -> stable R (for_each l f).
  Proof.
    intros Hf. induction l as [|x l IH]; simpl.
    - apply stable_ret.
    - apply stable_bind; auto.
  Qed.
End Stable.

#[global] Instance on_state_preorder {L T} (R : T -> T -> Prop) :
  PreOrder R -> PreOrder (on_state (L:=L) R).
Proof.
  intros HR. split.
  - intros a. unfold on_state. reflexivity.
  - intros a b c. unfold on_state. intros. etransitivity; eauto.
Qed.

Lemma stable_lift {L T A} (R : T -> T -> Prop) (m : M T A) :
  stable R m -> stable (on_state (L:=L) R) (lift m).
Proof.
  intros H [l s]. unfold lift, on_state. simpl. specialize (H s).
  destruct (m s) as [r s1]. exact H.
Qed.

Lemma stable_with_locals {L T A} (R : T -> T -> Prop) (l0 : L) (m : M (L * T) A) :
  stable (on_state R) m -> stable R (with_locals l0 m).
Proof.
  intros H s. unfold with_locals. specialize (H (l0, s)). unfold on_state in H.
  destruct (m (l0, s)) as [r ls]. exact H.
Qed.

Lemma stable_modify_local {T} (R : T -> T -> Prop) {HR : PreOrder R}
    (f : Locals -> Locals) :
  stable (on_state R) (@modify_local T f).
Proof. intros [l s]. unfold on_state. simpl. reflexivity. Qed.

Lemma stable_gets_local {T A} (R : T -> T -> Prop) {HR : PreOrder R}
    (f : Locals -> A) :
  stable (on_state R) (@gets_local T A f).
Proof. intros [l s]. unfold on_state. simpl. reflexivity. Qed.

Lemma stable_weaken {T A} (R R' : T -> T -> Prop) (m : M T A) :
  (forall s s', R s s' -> R' s s') -> stable R m -> stable R' m.
Proof. intros H Hm s. apply H, Hm. Qed.

Lemma stable_recorder_call (R : St -> St -> Prop) {HR : PreOrder R}
    (e : rec_event) :
  (forall s calls, R s (set_self (set__recorder_session calls) s)) ->
  stable R (recorder_call e).
Proof.
  intros H s. unfold recorder_call.
  destruct (_recorder_session (self s)); simpl; [apply H|reflexivity].
Qed.

(** Proving [stable R m] by following the structure of [m]; [leaf] proves
    the relation for a single assignment. *)
Ltac head_of t :=
  lazymatch t with
  | ?f _ => head_of f
  | _ => t
  end.

Ltac is_session_def h :=
  lazymatch h with
  | @bind => fail | @ret => fail | @raise => fail | @gets => fail
  | @modify => fail | @try_finally => fail | @try_except => fail
  | @for_each => fail | @lift => fail | @with_locals => fail
  | @of_res => fail | @assert_ => fail
  | _ => idtac
  end.

Ltac tc_solve := solve [typeclasses eauto].

Create HintDb stable_db.

Ltac stable_step leaf :=
  lazymatch goal with
  | H : stable ?R ?m |- stable ?R ?m => exact H
  | |- stable _ (ret _) => apply stable_ret; tc_solve
  | |- stable _ (raise _) => apply stable_raise; tc_solve
  | |- stable _ (gets _) => apply stable_gets; tc_solve
  | |- stable _ (of_res _) => apply stable_of_res; tc_solve
  | |- stable _ (assert_ _) => apply stable_assert; tc_solve
  | |- stable _ (gets_local _) => apply stable_gets_local; tc_solve
  | |- stable _ (modify_local _) => apply stable_modify_local; tc_solve
  | |- stable _ (bind _ _) => apply stable_bind; [ tc_solve .. | | intros ? ]
  | |- stable _ (try_finally _ _) => apply stable_try_finally; [ tc_solve .. | | ]
  | |- stable _ (try_except _ _ _) =>
      apply stable_try_except; [ tc_solve .. | | intros ? ]
  | |- stable _ (for_each _ _) => apply stable_for_each; [ tc_solve .. | intros ? ]
  | |- stable _ (with_locals _ _) => apply stable_with_locals
  | |- stable _ (lift _) => apply stable_lift
  | |- stable _ (recorder_call _) =>
      apply stable_recorder_call; [ tc_solve .. | intros ? ?; leaf ]
  | |- stable _ (modify _) => apply stable_modify; intros ?; leaf
  | |- stable _ (match ?x with _ => _ end) => destruct x
  | |- stable _ (if ?x then _ else _) => destruct x
  | |- stable _ ?m =>
      first [ solve [eauto with stable_db]
            | let h := head_of m in is_session_def h; progress unfold h ]
  end.

Ltac stable_auto leaf := repeat (stable_step leaf).

(** *** The recorder is the only thing a notification changes *)

#[global] Instance recorder_only_preorder : PreOrder recorder_only.
Proof.
  split.
  - intros [[] ? ? ?]. reflexivity.
  - intros a b c H1 H2. unfold recorder_only in *.
    rewrite H2 at 1. rewrite H1 at 1. destruct a as [[] ? ? ?]. reflexivity.
Qed.

Ltac recorder_only_leaf :=
  unfold recorder_only;
  match goal with |- _ = set_self _ ?s => destruct s as [[] ? ? ?] end;
  reflexivity.

Lemma notify_control_stable env : stable recorder_only (notify_control env).
Proof. stable_auto recorder_only_leaf. Qed.

Lemma notify_control_run env s :
  exists r calls,
    notify_control env s = (r, set_self (set__recorder_session calls) s).
Proof.
  pose proof (notify_control_stable env s) as H.
  destruct (notify_control env s) as [r s']. simpl in H.
  exists r, (_recorder_session (self s')). f_equal. exact H.
Qed.

(** *** Running a method symbolically *)

Ltac run_notify env :=
  match goal with
  | |- context [notify_control env ?st] =>
      let r := fresh "r" in let calls := fresh "calls" in let E := fresh "E" in
      destruct (notify_control_run env st) as (r & calls & E);
      rewrite E; clear E; destruct r
  end.

Ltac run_case :=
  match goal with
  | |- context [match ?x with _ => _ end] =>
      lazymatch x with
      | context [match _ with _ => _ end] => fail
      | _ => destruct x eqn:?
      end
  end.

Local Arguments notify_control : simpl never.

Ltac run_all env :=
  repeat (first [ run_notify env
                | run_case
                | progress unfold bind, ret, raise, gets, modify, of_res ];
          simpl in * ).

Ltac normalize_traces :=
  repeat match goal with
         | u : unit |- _ => destruct u
         end;
  rewrite <- ?app_assoc in *; simpl in *.

(** ** The data-transfer step *)

Lemma release_done_at env tr c result :
  connection_close env tr c = Ok tt ->
  pool_check_in env (tr ++ [EvClose Data c]) c = result ->
  release env tr c [EvClose Data c; EvCheckIn Data c result].
Proof. intros H <-. apply release_done, H. Qed.

Lemma transfer_stream_failed_at env command s host port c e rel resp sink :
  sink = Response.body (response s) ->
  release env
    (trace s ++ [EvSetupDataStream; EvCheckOut Data host port (Ok c);
                 EvDataConnect c; EvReadStream command sink]) c rel ->
  resp = response s \/
  resp = streamed
           (fst (commander_read_stream env
              (trace s ++ [EvSetupDataStream; EvCheckOut Data host port (Ok c);
                           EvDataConnect c]) command))
           (response s) ->
  transfer env command s (Raise e)
    ([EvSetupDataStream; EvCheckOut Data host port (Ok c); EvDataConnect c;
      EvReadStream command sink] ++ rel) resp.
Proof. intros ->. apply transfer_stream_failed. Qed.

Lemma transfer_done_at env command s host port c reply resp sink :
  sink = Response.body (response s) ->
  resp = streamed
           (fst (commander_read_stream env
              (trace s ++ [EvSetupDataStream; EvCheckOut Data host port (Ok c);
                           EvDataConnect c]) command))
           (response s) ->
  snd (commander_read_stream env
         (trace s ++ [EvSetupDataStream; EvCheckOut Data host port (Ok c);
                      EvDataConnect c]) command) = Ok reply ->
  transfer env command s (Ok reply)
    [EvSetupDataStream; EvCheckOut Data host port (Ok c); EvDataConnect c;
     EvReadStream command sink; EvClose Data c; EvCheckIn Data c (Ok tt)]
    resp.
Proof. intros -> ->. apply transfer_done. Qed.

Ltac release_shape :=
  first [ eapply release_close_raised; eassumption
        | eapply release_done_at;
            [ eassumption | rewrite <- ?app_assoc; simpl; eassumption ] ].

Ltac sink_eq := first [ reflexivity | symmetry; assumption ].

Ltac streamed_eq :=
  unfold streamed;
  repeat match goal with
         | H : fst (commander_read_stream _ _ _) = _ |- _ => rewrite H; clear H
         | H : Response.body _ = _ |- _ => rewrite H; clear H
         end;
  reflexivity.

Ltac transfer_shape :=
  first [ apply transfer_no_commander; assumption
        | apply transfer_negotiation_failed
        | apply transfer_not_acquired
        | eapply transfer_done_at; [ sink_eq | streamed_eq | eassumption ]
        | eapply transfer_stream_failed_at;
            [ sink_eq | release_shape
            | first [ left; reflexivity | right; streamed_eq ] ]
        | eapply transfer_before_stream; release_shape ].

Lemma fetch_with_command_transfer env command s :
  exists tail,
    trace (snd (_fetch_with_command env command s)) = trace s ++ tail /\
    transfer env command s (fst (_fetch_with_command env command s)) tail
      (response (snd (_fetch_with_command env command s))).
Proof.
  unfold _fetch_with_command, with_locals, try_finally, setup_data_stream,
    connection_factory, read_stream, lift_when_recorder, body_op,
    check_out, check_in, close_connection, commander_call, external_call,
    run_data_handler, recorder_call, record,
    gets_local, modify_local, lift, bind, gets, modify, of_res, ret, raise.
  simpl.
  run_all env.
  all: normalize_traces.
  all: repeat match goal with
         | |- context [snd (commander_read_stream ?e ?t ?c)] =>
             destruct (snd (commander_read_stream e t c)) eqn:?
         end.
  all: try (exists []; rewrite app_nil_r; split; [reflexivity | transfer_shape]).
  all: try (eexists; split; [reflexivity | transfer_shape]).
Qed.

(** ** The preparation step *)

Ltac run_lookup :=
  match goal with
  | |- context [alter _ ?k _ !! ?k] => rewrite lookup_alter_eq
  | H : ?m !! ?k = _ |- context [?m !! ?k] => rewrite H
  end.

Ltac run_prepare env :=
  repeat (first [ run_lookup
                | run_notify env
                | run_case
                | progress unfold bind, ret, raise, gets, modify, of_res ];
          simpl in * ).

Ltac prepared_shape :=
  first
    [ apply prepared_refused
    | eapply prepared_check_out_failed; eassumption
    | eapply prepared_connected;
        [ eassumption | eassumption | eassumption
        | first [ exists []; reflexivity | eexists; reflexivity ]
        | reflexivity | reflexivity | reflexivity | reflexivity
        | intros ? ?; first [ discriminate | repeat split; eauto ] ] ].

Lemma prepare_fetch_prepared env request file callback s :
  exists tail,
    trace (snd (_prepare_fetch env request file callback s)) = trace s ++ tail /\
    prepared env request s (fst (_prepare_fetch env request file callback s)) tail
      (snd (_prepare_fetch env request file callback s)).
Proof.
  unfold _prepare_fetch, _init_stream, _log_in, when_recorder, get_request,
    check_out, commander_call, recorder_call, record, assert_, truthy, negb,
    bind, gets, modify, of_res, ret, raise.
  simpl.
  run_prepare env.
  all: normalize_traces; simplify_eq/=.
  all: try (exists []; rewrite app_nil_r; split; [reflexivity | prepared_shape]).
  all: try (eexists; split; [reflexivity | prepared_shape]).
Qed.

(** ** What the steps after the preparation leave alone *)

#[global] Instance keep_preorder : PreOrder keep.
Proof.
  split.
  - intros s. repeat split.
  - intros a b c (? & ? & ? & ?) (? & ? & ? & ?). repeat split; congruence.
Qed.

Ltac keep_leaf := repeat split.

#[global] Instance extends_preorder P : PreOrder (extends P).
Proof.
  split.
  - intros s. exists []. rewrite app_nil_r. split; [reflexivity|constructor].
  - intros a b c (t1 & H1 & F1) (t2 & H2 & F2). exists (t1 ++ t2). split.
    + rewrite H2, H1, app_assoc. reflexivity.
    + apply Forall_app. split; assumption.
Qed.

Lemma extends_same P s s' : trace s' = trace s -> extends P s s'.
Proof.
  intros H. exists []. rewrite app_nil_r. split; [exact H|constructor].
Qed.

#[global] Instance keeps_body_preorder : PreOrder keeps_body.
Proof.
  split.
  - intros s H. exact H.
  - intros a b c H1 H2 H. apply H2, H1, H.
Qed.

Lemma transfer_events env command s r tail resp :
  transfer env command s r tail resp -> Forall transfer_event tail.
Proof.
  intros H. destruct H;
    repeat match goal with H : release _ _ _ _ |- _ => destruct H end;
    repeat constructor.
Qed.

Lemma fetch_with_command_keep env command :
  stable keep (_fetch_with_command env command).
Proof. stable_auto keep_leaf. Qed.

Lemma fetch_with_command_extends env command (P : event -> Prop) :
  (forall e, transfer_event e -> P e) ->
  stable (extends P) (_fetch_with_command env command).
Proof.
  intros HP s. destruct (fetch_with_command_transfer env command s) as (tail & Ht & Hs).
  exists tail. split; [exact Ht|].
  eapply Forall_impl; [eapply transfer_events; exact Hs|exact HP].
Qed.

Lemma streamed_keeps_body data resp :
  is_Some (Response.body resp) -> is_Some (Response.body (streamed data resp)).
Proof.
  intros H. unfold streamed. destruct data; [exact H|].
  destruct (Response.body resp); [eexists; reflexivity|].
  destruct H as [? [=]].
Qed.

Lemma fetch_with_command_keeps_body env command :
  stable keeps_body (_fetch_with_command env command).
Proof.
  intros s Hb. destruct (fetch_with_command_transfer env command s) as (tail & _ & Hs).
  revert Hs. generalize (fst (_fetch_with_command env command s)).
  generalize (response (snd (_fetch_with_command env command s))).
  intros resp r Hs. destruct Hs; try assumption.
  - destruct H0 as [-> | ->]; [assumption|]. apply streamed_keeps_body, Hb.
  - apply streamed_keeps_body, Hb.
Qed.

#[global] Hint Resolve fetch_with_command_keep fetch_with_command_extends
  fetch_with_command_keeps_body : stable_db.

Ltac extends_leaf := apply extends_same; reflexivity.

Ltac keeps_body_leaf :=
  let H := fresh in
  intros H; simpl; first [ exact H | eexists; reflexivity ].

Lemma fetch_unfold env request file callback s :
  fetch env request file callback s =
  match _prepare_fetch env request file callback (new_response s) with
  | (Ok _, s1) => fetch_body env request s1
  | (Raise e, s1) => (Raise e, s1)
  end.
Proof. reflexivity. Qed.

Lemma fetch_file_listing_unfold env request file callback s :
  fetch_file_listing env request file callback s =
  match _prepare_fetch env request file callback (new_response s) with
  | (Ok _, s1) => listing_body env request s1
  | (Raise e, s1) => (Raise e, s1)
  end.
Proof. reflexivity. Qed.

Section AfterPreparation.
Variable env : Env.
Variable P : event -> Prop.
Hypothesis P_transfer : forall e, transfer_event e -> P e.

Lemma get_machine_listing_keep request : stable keep (_get_machine_listing env request).
Proof. stable_auto keep_leaf. Qed.

Lemma get_list_listing_keep request : stable keep (_get_list_listing env request).
Proof. stable_auto keep_leaf. Qed.

Lemma fetch_body_keep request : stable keep (fetch_body env request).
Proof. stable_auto keep_leaf. Qed.

Lemma listing_body_keep request : stable keep (listing_body env request).
Proof. stable_auto keep_leaf. Qed.

Lemma get_machine_listing_extends request :
  stable (extends P) (_get_machine_listing env request).
Proof. stable_auto extends_leaf. Qed.

Lemma get_list_listing_extends request :
  stable (extends P) (_get_list_listing env request).
Proof. stable_auto extends_leaf. Qed.

Lemma fetch_body_extends request : stable (extends P) (fetch_body env request).
Proof. stable_auto extends_leaf. Qed.

Lemma listing_body_extends request : stable (extends P) (listing_body env request).
Proof. stable_auto extends_leaf. Qed.

Lemma get_machine_listing_keeps_body request :
  stable keeps_body (_get_machine_listing env request).
Proof. stable_auto keeps_body_leaf. Qed.

End AfterPreparation.

Lemma held_app r tr tail :
  held r (tr ++ tail) = fold_left (held_step r) tail (held r tr).
Proof. unfold held. apply fold_left_app. Qed.

Lemma new_calls_tail s s' tail :
  trace s' = trace s ++ tail -> new_calls s s' = tail.
Proof.
  intros H. unfold new_calls. rewrite H. apply drop_app_length.
Qed.

(** ** [clean] and [close] *)

Lemma clean_run env s :
  clean env s =
  match _connection (self s) with
  | Some c =>
      (pool_check_in env (trace s) c,
       set_trace (fun tr => tr ++ [EvCheckIn Control c (pool_check_in env (trace s) c)]) s)
  | None => (Ok tt, s)
  end.
Proof.
  unfold clean, check_in, record, bind, gets, modify, of_res, ret.
  destruct (_connection (self s)); reflexivity.
Qed.

Lemma close_run env s :
  close env s =
  match _connection (self s) with
  | Some c =>
      (connection_close env (trace s) c,
       set_trace (fun tr => tr ++ [EvClose Control c]) s)
  | None => (Ok tt, s)
  end.
Proof.
  unfold close, close_connection, external_call, record, bind, gets, modify,
    of_res, ret.
  destruct (_connection (self s)); reflexivity.
Qed.

(** C3 (as amended): [clean] and [close] never modify the session.  With
    no control connection held they make no call and return normally, so
    repeating [clean], or calling [close] after it, changes nothing.  With
    the control connection [c] held, every [clean] makes one [check_in c]
    call and ends as that call does, so two [clean] calls make two
    [check_in c] calls; [close] after a [clean] that returned makes one
    [close] call on [c] and ends as that call does. *)
Theorem clean_close_effect env s :
  self (snd (clean env s)) = self s /\
  self (snd (close env s)) = self s /\
  (_connection (self s) = None ->
   clean env s = (Ok tt, s) /\
   (clean env;; clean env) s = (Ok tt, s) /\
   (clean env;; close env) s = (Ok tt, s)) /\
  (forall c, _connection (self s) = Some c ->
   let first_in := EvCheckIn Control c (pool_check_in env (trace s) c) in
   clean env s =
     (pool_check_in env (trace s) c, set_trace (fun tr => tr ++ [first_in]) s) /\
   (pool_check_in env (trace s) c = Ok tt ->
    fst ((clean env;; clean env) s) = pool_check_in env (trace s ++ [first_in]) c /\
    trace (snd ((clean env;; clean env) s)) =
      trace s ++ [first_in;
                  EvCheckIn Control c (pool_check_in env (trace s ++ [first_in]) c)] /\
    fst ((clean env;; close env) s) = connection_close env (trace s ++ [first_in]) c /\
    trace (snd ((clean env;; close env) s)) =
      trace s ++ [first_in; EvClose Control c])).
Proof.
  split; [|split; [|split]].
  - rewrite clean_run. destruct (_connection (self s)); reflexivity.
  - rewrite close_run. destruct (_connection (self s)); reflexivity.
  - intros H. unfold bind. rewrite !clean_run, H. rewrite close_run, clean_run, H.
    repeat split.
  - intros c H. simpl. split.
    + rewrite clean_run, H. reflexivity.
    + intros Hin. unfold bind. rewrite clean_run, H, Hin.
      rewrite clean_run, close_run. simpl. rewrite H.
      simpl. rewrite <- !app_assoc. repeat split.
Qed.

Lemma clean_close_effect_witness :
  _connection (self after_fetch) =
    Some {| Connection.ident := 0; Connection.address := ("ftp.example.com", 21) |} /\
  trace (snd ((clean sample_env;; close sample_env) after_fetch)) =
    trace after_fetch
    ++ [EvCheckIn Control
          {| Connection.ident := 0; Connection.address := ("ftp.example.com", 21) |}
          (Ok tt);
        EvClose Control
          {| Connection.ident := 0; Connection.address := ("ftp.example.com", 21) |}].
Proof.
  split; [reflexivity|].
  apply (proj2 (proj2 (proj2 (clean_close_effect sample_env after_fetch)))
           {| Connection.ident := 0; Connection.address := ("ftp.example.com", 21) |});
    reflexivity.
Defined.

(** C3 as stated fails: on a session that holds its control connection, a
    second [clean] makes a second [check_in] call on the pool, and a pool
    that only takes back what is checked out makes that second call
    raise. *)
Lemma clean_twice_counterexample :
  fst (clean sample_env after_fetch) = Ok tt /\
  fst ((clean sample_env;; clean sample_env) after_fetch)
    = Raise (OtherError "KeyError" "") /\
  trace (snd ((clean sample_env;; clean sample_env) after_fetch))
    <> trace (snd (clean sample_env after_fetch)).
Proof.
  split; [vm_compute; reflexivity|].
  split; [vm_compute; reflexivity|].
  vm_compute. intros H. discriminate H.
Qed.

(** ** One control connection per session *)

Lemma no_control_check_outs tail :
  Forall no_control_check_out tail -> control_check_outs tail = [].
Proof.
  induction 1 as [|e l He _ IH]; [reflexivity|].
  unfold control_check_outs in *. simpl. rewrite He. exact IH.
Qed.

Lemma transfer_no_control_check_out e :
  transfer_event e -> no_control_check_out e.
Proof. destruct e as [[] ? ? []| | | | | | |]; simpl; intros H; try reflexivity; destruct H. Qed.

Lemma Forall_prefix {A} (Q : A -> Prop) (l1 l2 : list A) :
  l1 `prefix_of` l2 -> Forall Q l2 -> Forall Q l1.
Proof. intros [k ->] H. apply Forall_app in H. apply H. Qed.

Lemma owns_after s s' :
  owns_its_check_outs s -> keep s s' -> extends no_control_check_out s s' ->
  owns_its_check_outs s'.
Proof.
  unfold owns_its_check_outs. intros H (_ & Hc & _) (tail & Ht & HF).
  rewrite Hc, Ht. unfold control_check_outs in *. rewrite omap_app.
  fold (control_check_outs tail). rewrite (no_control_check_outs tail HF).
  rewrite app_nil_r. exact H.
Qed.

Lemma prepare_fetch_owns env request file callback s :
  owns_its_check_outs s ->
  owns_its_check_outs (snd (_prepare_fetch env request file callback s)).
Proof.
  intros H.
  destruct (prepare_fetch_prepared env request file callback s) as (tail & Ht & Hp).
  revert Ht Hp. generalize (fst (_prepare_fetch env request file callback s)).
  generalize (snd (_prepare_fetch env request file callback s)).
  intros s' res Ht Hp. unfold owns_its_check_outs in *.
  destruct Hp as [e | r e Hc Hr Ho | r c res rest s' Hc Hr Ho Hrest Hc' _ _ _ _].
  - exact H.
  - simpl in *. rewrite Hc in *. unfold control_check_outs in *.
    rewrite omap_app. simpl. rewrite app_nil_r. exact H.
  - rewrite Ht, Hc'. rewrite Hc in H. unfold control_check_outs in *.
    rewrite omap_app, H. simpl. f_equal.
    apply (no_control_check_outs rest).
    eapply Forall_prefix; [exact Hrest|]. repeat constructor.
Qed.

Lemma run_call_owns env c s :
  owns_its_check_outs s -> owns_its_check_outs (run_call env c s).
Proof.
  intros H. destruct c as [request file callback|request file callback| |]; simpl.
  - rewrite fetch_unfold.
    pose proof (prepare_fetch_owns env request file callback (new_response s) H) as Hp.
    destruct (_prepare_fetch env request file callback (new_response s))
      as [[u|e] s1]; simpl in *; [|exact Hp].
    eapply owns_after; [exact Hp| |].
    + apply fetch_body_keep.
    + apply fetch_body_extends, transfer_no_control_check_out.
  - rewrite fetch_file_listing_unfold.
    pose proof (prepare_fetch_owns env request file callback (new_response s) H) as Hp.
    destruct (_prepare_fetch env request file callback (new_response s))
      as [[u|e] s1]; simpl in *; [|exact Hp].
    eapply owns_after; [exact Hp| |].
    + apply listing_body_keep.
    + apply listing_body_extends, transfer_no_control_check_out.
  - rewrite clean_run. unfold owns_its_check_outs in *.
    destruct (_connection (self s)) eqn:E; simpl; [|rewrite E; exact H].
    rewrite E. unfold control_check_outs in *. rewrite omap_app.
    destruct (pool_check_in env (trace s) t); simpl; rewrite app_nil_r; exact H.
  - rewrite close_run. unfold owns_its_check_outs in *.
    destruct (_connection (self s)) eqn:E; simpl; [|rewrite E; exact H].
    rewrite E. unfold control_check_outs in *. rewrite omap_app.
    simpl. rewrite app_nil_r. exact H.
Qed.

Lemma run_calls_owns env cs s :
  owns_its_check_outs s -> owns_its_check_outs (run_calls env cs s).
Proof.
  revert s. induction cs as [|c cs IH]; intros s H; simpl; [exact H|].
  apply IH, run_call_owns, H.
Qed.

Lemma held_connection_refuses env request file callback s c :
  _connection (self s) = Some c ->
  fetch env request file callback s = (Raise AssertionError, new_response s) /\
  fetch_file_listing env request file callback s
    = (Raise AssertionError, new_response s).
Proof.
  intros H.
  unfold fetch, fetch_file_listing, _prepare_fetch, _init_stream, assert_,
    bind, gets, modify. simpl. rewrite H. simpl. split; reflexivity.
Qed.

(** C9: a session that holds its control connection refuses a further
    [fetch] or [fetch_file_listing] at the assertion of [_init_stream],
    before any call on the pool; whatever methods are called on a new
    session, in whatever order, the pool hands it at most one control
    connection, the one its [_connection] attribute holds. *)
Theorem one_control_connection env :
  (forall request file callback s c,
     _connection (self s) = Some c ->
     fetch env request file callback s = (Raise AssertionError, new_response s) /\
     fetch_file_listing env request file callback s
       = (Raise AssertionError, new_response s)) /\
  (forall recorder reqs cs,
     let s := run_calls env cs (initial_state recorder reqs) in
     (length (control_check_outs (trace s)) <= 1)%nat /\
     forall c, In c (control_check_outs (trace s)) -> _connection (self s) = Some c).
Proof.
  split.
  - intros request file callback s c H.
    apply (held_connection_refuses env request file callback s c H).
  - intros recorder reqs cs s.
    assert (Hown : owns_its_check_outs s).
    { apply run_calls_owns. reflexivity. }
    unfold owns_its_check_outs in Hown. rewrite Hown.
    destruct (_connection (self s)); simpl; split; try lia.
    intros c [->|[]]. reflexivity.
Qed.

Lemma one_control_connection_witness :
  _connection (self after_fetch) =
    Some {| Connection.ident := 0; Connection.address := ("ftp.example.com", 21) |} /\
  fetch sample_env 0%nat FileNone None after_fetch
    = (Raise AssertionError, new_response after_fetch).
Proof.
  split; [reflexivity|].
  apply (proj1 (one_control_connection sample_env) 0%nat FileNone None after_fetch
           {| Connection.ident := 0; Connection.address := ("ftp.example.com", 21) |}).
  reflexivity.
Defined.

(** ** The request object *)

Lemma alter_set_address_url_info a request (m : gmap nat Request.t) k :
  Request.url_info <$> alter (Request.set_address a) request m !! k
  = Request.url_info <$> m !! k.
Proof.
  destruct (decide (request = k)) as [->|Hne].
  - rewrite lookup_alter_eq. destruct (m !! k); reflexivity.
  - rewrite lookup_alter_ne by exact Hne. reflexivity.
Qed.

Lemma prepare_fetch_only_address env request file callback s :
  only_address_assigned request s (snd (_prepare_fetch env request file callback s)).
Proof.
  destruct (prepare_fetch_prepared env request file callback s) as (tail & Ht & Hp).
  revert Ht Hp. generalize (fst (_prepare_fetch env request file callback s)).
  generalize (snd (_prepare_fetch env request file callback s)).
  intros s' res Ht Hp.
  destruct Hp as [e | r e Hc Hr Ho | r c res rest s' Hc Hr Ho Hrest Hc' _ _ Hreq _].
  - repeat split; auto. intros c H1 H2. congruence.
  - repeat split; auto. simpl. intros c H1 H2. congruence.
  - unfold only_address_assigned. rewrite Hreq. split; [|split; [|split]].
    + intros k. apply alter_set_address_url_info.
    + intros k Hk. apply lookup_alter_ne. congruence.
    + right. exists c. split; [exact Hc'|]. apply lookup_alter_eq.
    + intros c' _ Hc''. rewrite Hc' in Hc''. injection Hc'' as <-.
      apply lookup_alter_eq.
Qed.

Lemma only_address_assigned_keep request s s1 s2 :
  _connection (self (new_response s)) = _connection (self s) ->
  only_address_assigned request (new_response s) s1 -> keep s1 s2 ->
  only_address_assigned request s s2.
Proof.
  intros _ (H1 & H2 & H3 & H4) (Hr & Hc & _ & _).
  unfold only_address_assigned. rewrite Hr, Hc. simpl in *.
  repeat split; assumption.
Qed.

(** C8: [fetch] and [fetch_file_listing] change no request object other
    than the one they are given, and of that one only the [address]
    attribute, which becomes the address of the control connection once
    it has been checked out; [url_info] (scheme, host, port, path and
    credentials) is unchanged on every outcome. *)
Theorem request_only_gains_address env request file callback s :
  only_address_assigned request s (snd (fetch env request file callback s)) /\
  only_address_assigned request s
    (snd (fetch_file_listing env request file callback s)).
Proof.
  split.
  - rewrite fetch_unfold.
    pose proof (prepare_fetch_only_address env request file callback (new_response s))
      as Hp.
    destruct (_prepare_fetch env request file callback (new_response s))
      as [[u|e] s1]; simpl in Hp |- *.
    + eapply only_address_assigned_keep; [reflexivity|exact Hp|].
      apply fetch_body_keep.
    + exact Hp.
  - rewrite fetch_file_listing_unfold.
    pose proof (prepare_fetch_only_address env request file callback (new_response s))
      as Hp.
    destruct (_prepare_fetch env request file callback (new_response s))
      as [[u|e] s1]; simpl in Hp |- *.
    + eapply only_address_assigned_keep; [reflexivity|exact Hp|].
      apply listing_body_keep.
    + exact Hp.
Qed.

Lemma request_only_gains_address_witness :
  requests after_fetch !! 0%nat
  = Some {| Request.url_info := sample_url;
            Request.address := Some ("ftp.example.com", 21) |}.
Proof.
  pose proof (request_only_gains_address sample_env 0%nat FileNone None
                (initial_state None sample_requests)) as [(_ & _ & _ & H) _].
  exact (H {| Connection.ident := 0; Connection.address := ("ftp.example.com", 21) |}
           eq_refl eq_refl).
Defined.

(** ** Credentials *)






(** ** Release of the data connection *)

#[global] Instance held_same_preorder : PreOrder held_same.
Proof.
  split.
  - intros s. reflexivity.
  - intros a b c H1 H2. unfold held_same in *. congruence.
Qed.

Ltac held_same_leaf := unfold held_same; reflexivity.

Lemma remove_first_head c h : remove_first c (c :: h) = h.
Proof. simpl. destruct (decide (c = c)); [reflexivity|congruence]. Qed.

Lemma release_normal env tr c rel :
  releases_normally env -> In c (held Data tr) -> release env tr c rel ->
  rel = [EvClose Data c; EvCheckIn Data c (Ok tt)].
Proof.
  intros [Hclose Hin] Hc Hrel. destruct Hrel as [e He|_].
  - rewrite Hclose in He. discriminate He.
  - rewrite Hin; [reflexivity|]. rewrite held_app. simpl. exact Hc.
Qed.

Ltac not_in_list :=
  let H := fresh in
  intros H; simpl in H;
  repeat match goal with
         | H : _ \/ _ |- _ => destruct H as [H|H]
         | H : False |- _ => destruct H
         | H : _ = _ |- _ => discriminate H
         end.

Ltac held_after_check_out :=
  rewrite held_app; simpl; left; reflexivity.

Lemma transfer_released env command s r tail resp :
  releases_normally env ->
  transfer env command s r tail resp -> released_tail tail.
Proof.
  intros Hrel Ht.
  destruct Ht as [Hc | e | host port e | host port c e rel Hr
                 | host port c e rel resp Hr _ | host port c reply _].
  - apply released_nothing; try (intros; not_in_list); constructor.
  - apply released_nothing; try (intros; not_in_list).
    repeat constructor.
  - apply released_nothing; try (intros; not_in_list).
    repeat constructor.
  - assert (Hin : In c (held Data
              (trace s ++ [EvSetupDataStream; EvCheckOut Data host port (Ok c);
                           EvDataConnect c]))) by held_after_check_out.
    rewrite (release_normal env _ c rel Hrel Hin Hr).
    apply (released_acquired host port c [EvDataConnect c]);
      [repeat constructor|intros; not_in_list].
  - assert (Hin : In c (held Data
              (trace s ++ [EvSetupDataStream; EvCheckOut Data host port (Ok c);
                           EvDataConnect c;
                           EvReadStream command (Response.body (response s))])))
      by held_after_check_out.
    rewrite (release_normal env _ c rel Hrel Hin Hr).
    apply (released_acquired host port c
             [EvDataConnect c; EvReadStream command (Response.body (response s))]);
      [repeat constructor|intros; not_in_list].
  - apply (released_acquired host port c
             [EvDataConnect c; EvReadStream command (Response.body (response s))]);
      [repeat constructor|intros; not_in_list].
Qed.

Lemma fold_held_same tail h :
  Forall (fun e => forall h, held_step Data h e = h) tail ->
  fold_left (held_step Data) tail h = h.
Proof.
  intros HF. revert h. induction HF as [|e l He _ IH]; intros h; [reflexivity|].
  simpl. rewrite He. apply IH.
Qed.

Lemma released_tail_held tail h :
  released_tail tail -> fold_left (held_step Data) tail h = h.
Proof.
  intros [tail' _ _ _ HF | host port c between HF _].
  - apply fold_held_same, HF.
  - simpl. rewrite fold_left_app, (fold_held_same between _ HF). simpl.
    destruct (decide (c = c)); [reflexivity|congruence].
Qed.

Lemma fetch_with_command_held env command :
  releases_normally env -> stable held_same (_fetch_with_command env command).
Proof.
  intros Hrel s. destruct (fetch_with_command_transfer env command s) as (tail & Ht & Hs).
  unfold held_same. rewrite Ht, held_app.
  eapply released_tail_held, transfer_released; [exact Hrel|exact Hs].
Qed.

Lemma prepare_fetch_held env request file callback :
  stable held_same (_prepare_fetch env request file callback).
Proof.
  intros s.
  destruct (prepare_fetch_prepared env request file callback s) as (tail & Ht & Hp).
  unfold held_same. rewrite Ht, held_app. apply fold_held_same.
  revert Hp. generalize (fst (_prepare_fetch env request file callback s)).
  generalize (snd (_prepare_fetch env request file callback s)).
  intros s' res Hp.
  destruct Hp as [e | r e _ _ _ | r c res rest s' _ _ _ Hrest _ _ _ _ _].
  - constructor.
  - repeat constructor.
  - constructor; [intros h; reflexivity|].
    eapply Forall_prefix; [exact Hrest|]. repeat constructor.
Qed.

Section Released.
Variable env : Env.
Hypothesis env_releases : releases_normally env.

Lemma fetch_body_held request : stable held_same (fetch_body env request).
Proof.
  pose proof (fun command => fetch_with_command_held env command env_releases).
  stable_auto held_same_leaf.
Qed.

Lemma listing_body_held request : stable held_same (listing_body env request).
Proof.
  pose proof (fun command => fetch_with_command_held env command env_releases).
  stable_auto held_same_leaf.
Qed.

Lemma fetch_held request file callback s :
  held Data (trace (snd (fetch env request file callback s))) = held Data (trace s).
Proof.
  rewrite fetch_unfold.
  pose proof (prepare_fetch_held env request file callback (new_response s)) as Hp.
  destruct (_prepare_fetch env request file callback (new_response s))
    as [[u|e] s1]; simpl in Hp |- *; [|exact Hp].
  pose proof (fetch_body_held request s1) as Hb. unfold held_same in *.
  rewrite Hb. exact Hp.
Qed.

Lemma fetch_file_listing_held request file callback s :
  held Data (trace (snd (fetch_file_listing env request file callback s)))
  = held Data (trace s).
Proof.
  rewrite fetch_file_listing_unfold.
  pose proof (prepare_fetch_held env request file callback (new_response s)) as Hp.
  destruct (_prepare_fetch env request file callback (new_response s))
    as [[u|e] s1]; simpl in Hp |- *; [|exact Hp].
  pose proof (listing_body_held request s1) as Hb. unfold held_same in *.
  rewrite Hb. exact Hp.
Qed.

End Released.


Lemma sample_env_releases mlsd_code others :
  releases_normally (server_env mlsd_code others).
Proof.
  split; [reflexivity|].
  intros tr c Hin. simpl. unfold strict_check_in.
  rewrite bool_decide_eq_true_2; [reflexivity|].
  apply list_elem_of_In, in_or_app. right. exact Hin.
Qed.


(** ** The listing fallback *)

Lemma listing_handler_run env request error s b :
  Response.body (response s) = Some b ->
  listing_handler env request error s =
  (if fallback_eligible env error
   then _get_list_listing env request
   else raise error) (reset_sink s).
Proof.
  intros H. unfold listing_handler, body_op, bind, gets, modify. simpl.
  rewrite H. simpl. reflexivity.
Qed.

Lemma fallback_eligible_codes env code msg :
  fallback_eligible env (FTPServerError code msg) = true <->
  code = syntax_error_command_unrecognized env \/
  code = command_not_implemented env.
Proof.
  unfold fallback_eligible, fallback_codes. simpl.
  rewrite !orb_true_iff, !Z.eqb_eq. intuition discriminate.
Qed.

Lemma get_list_listing_unfold env request s r :
  requests s !! request = Some r ->
  _get_list_listing env request s =
  match _fetch_with_command env (list_command r) s with
  | (Ok reply, s') => list_finish env reply s'
  | (Raise e, s') => (Raise e, s')
  end.
Proof.
  intros H. unfold _get_list_listing, get_request, bind, gets. simpl.
  rewrite H. reflexivity.
Qed.

#[global] Instance same_trace_preorder : PreOrder same_trace.
Proof.
  split.
  - intros s. reflexivity.
  - intros a b c H1 H2. unfold same_trace in *. congruence.
Qed.

Ltac same_trace_leaf := unfold same_trace; reflexivity.

Lemma list_finish_same_trace env reply : stable same_trace (list_finish env reply).
Proof. stable_auto same_trace_leaf. Qed.

Lemma clean_up_fetch_same_trace reply : stable same_trace (_clean_up_fetch reply).
Proof. stable_auto same_trace_leaf. Qed.

Lemma finish_same_trace {A} (m : M St A) reply :
  stable same_trace m ->
  stable same_trace (x <- m;; _clean_up_fetch reply;; gets response).
Proof.
  intros H. pose proof (clean_up_fetch_same_trace reply).
  stable_auto same_trace_leaf.
Qed.

(** A run of the legacy attempt adds the calls of one data transfer for
    the [LIST] command, starting from the sink as it is on entry. *)
Lemma get_list_listing_transfer env request s r :
  requests s !! request = Some r ->
  exists tail res resp,
    trace (snd (_get_list_listing env request s)) = trace s ++ tail /\
    transfer env (list_command r) s res tail resp.
Proof.
  intros Hr. rewrite (get_list_listing_unfold env request s r Hr).
  destruct (fetch_with_command_transfer env (list_command r) s) as (tail & Ht & Hs).
  exists tail. revert Ht Hs.
  destruct (_fetch_with_command env (list_command r) s) as [[reply|e] s']; simpl;
    intros Ht Hs.
  - exists (Ok reply), (response s'). split; [|exact Hs].
    rewrite <- Ht. apply (list_finish_same_trace env reply s').
  - exists (Raise e), (response s'). split; assumption.
Qed.

Lemma transfer_attempts env command s res tail resp :
  transfer env command s res tail resp -> (attempts tail <= 1)%nat.
Proof.
  intros H. destruct H;
    repeat match goal with H : release _ _ _ _ |- _ => destruct H end;
    unfold attempts; simpl; lia.
Qed.

Lemma transfer_starts_with_setup env command s res tail resp :
  transfer env command s res tail resp ->
  is_Some (_commander (self s)) ->
  In EvSetupDataStream tail.
Proof.
  intros H [cmd Hc]. destruct H; try (left; reflexivity).
  congruence.
Qed.

Lemma transfer_read_stream env command s res tail resp command' sink :
  transfer env command s res tail resp ->
  In (EvReadStream command' sink) tail ->
  command' = command /\ sink = Response.body (response s).
Proof.
  intros H Hin. destruct H;
    repeat match goal with H : release _ _ _ _ |- _ => destruct H end;
    simpl in Hin;
    repeat match goal with
           | H : _ \/ _ |- _ => destruct H as [H|H]
           | H : False |- _ => destruct H
           | H : EvReadStream _ _ = EvReadStream _ _ |- _ =>
               injection H as <- <-
           | H : _ = EvReadStream _ _ |- _ => discriminate H
           end; split; reflexivity.
Qed.

Lemma machine_listing_failed_ready env request file callback s s2 code msg :
  machine_listing_failed env request file callback s s2 code msg ->
  exists r c b,
    requests s2 !! request = Some r /\
    _connection (self s2) = Some c /\
    is_Some (_commander (self s2)) /\
    Response.body (response s2) = Some b.
Proof.
  intros (s1 & Hp & Hm).
  destruct (prepare_fetch_prepared env request file callback (new_response s))
    as (tail & _ & Hprep).
  rewrite Hp in Hprep. simpl in Hprep.
  inversion Hprep as [| |r c res rest s' Hc Hr Ho Hrest Hc' Hcmd Hreq Hreqs Hok];
    subst.
  destruct (Hok tt eq_refl) as (_ & Hbody & _).
  pose proof (get_machine_listing_keep env request s1) as (K1 & K2 & K3 & K4).
  pose proof (get_machine_listing_keeps_body env request s1 Hbody) as [b Hb].
  rewrite Hm in K1, K2, K3, K4, Hb. simpl in *.
  exists (Request.set_address (Connection.address c) r), c, b.
  repeat split.
  - rewrite K1, Hreqs, lookup_alter_eq. simpl in Hr. rewrite Hr. reflexivity.
  - congruence.
  - rewrite K3, Hcmd. eexists. reflexivity.
  - exact Hb.
Qed.

Lemma machine_listing_failed_run env request file callback s s2 code msg :
  machine_listing_failed env request file callback s s2 code msg ->
  fetch_file_listing env request file callback s =
  (reply <- (if fallback_eligible env (FTPServerError code msg)
             then _get_list_listing env request
             else raise (FTPServerError code msg));;
   _clean_up_fetch reply;;
   gets response) (reset_sink s2).
Proof.
  intros Hf.
  destruct (machine_listing_failed_ready _ _ _ _ _ _ _ _ Hf) as (r & c & b & _ & _ & _ & Hb).
  destruct Hf as (s1 & Hp & Hm).
  rewrite fetch_file_listing_unfold, Hp. unfold listing_body, try_except, bind.
  rewrite Hm. simpl.
  rewrite (listing_handler_run env request _ s2 b Hb). reflexivity.
Qed.

Lemma then_same_trace {A B} (m : M St A) (k : A -> M St B) s :
  (forall a, stable same_trace (k a)) ->
  trace (snd (bind m k s)) = trace (snd (m s)).
Proof.
  intros H. unfold bind. destruct (m s) as [[a|e] s']; simpl; [apply H|reflexivity].
Qed.

Lemma clean_up_then_response_same_trace reply :
  stable same_trace (_clean_up_fetch reply;; gets response).
Proof.
  pose proof (clean_up_fetch_same_trace reply). stable_auto same_trace_leaf.
Qed.

(** The calls of the legacy attempt, when the fallback is taken. *)
Lemma fallback_calls env request file callback s s2 code msg :
  machine_listing_failed env request file callback s s2 code msg ->
  fallback_eligible env (FTPServerError code msg) = true ->
  exists r res resp,
    requests s2 !! request = Some r /\
    transfer env (list_command r) (reset_sink s2) res
      (new_calls s2 (snd (fetch_file_listing env request file callback s))) resp.
Proof.
  intros Hf He.
  destruct (machine_listing_failed_ready _ _ _ _ _ _ _ _ Hf)
    as (r & c & b & Hr & _ & _ & _).
  rewrite (machine_listing_failed_run _ _ _ _ _ _ _ _ Hf), He.
  destruct (get_list_listing_transfer env request (reset_sink s2) r Hr)
    as (tail & res & resp & Ht & Hs).
  exists r, res, resp. split; [exact Hr|].
  rewrite (new_calls_tail s2 _ tail); [exact Hs|].
  rewrite then_same_trace; [exact Ht|].
  intros reply. apply clean_up_then_response_same_trace.
Qed.

(** C2: when the machine-listing attempt of [fetch_file_listing] raises a
    server-reply error, the legacy attempt is made (a further data
    transfer is started, and the only command it streams is [LIST]) if
    and only if the reply code of the error is "syntax error, command
    unrecognized" or "command not implemented"; with any other code the
    same error is raised to the caller and no further call is made. *)
Theorem listing_fallback_decision env request file callback s s2 code msg :
  machine_listing_failed env request file callback s s2 code msg ->
  let out := fetch_file_listing env request file callback s in
  (In EvSetupDataStream (new_calls s2 (snd out)) <->
   code = syntax_error_command_unrecognized env \/
   code = command_not_implemented env) /\
  (~ (code = syntax_error_command_unrecognized env \/
      code = command_not_implemented env) ->
   fst out = Raise (FTPServerError code msg) /\ new_calls s2 (snd out) = []) /\
  (forall command sink,
     In (EvReadStream command sink) (new_calls s2 (snd out)) ->
     exists r, requests s2 !! request = Some r /\ command = list_command r).
Proof.
  intros Hf out. subst out.
  destruct (fallback_eligible env (FTPServerError code msg)) eqn:He.
  - pose proof (proj1 (fallback_eligible_codes env code msg) He) as Hcode.
    destruct (fallback_calls _ _ _ _ _ _ _ _ Hf He) as (r & res & resp & Hr & Hs).
    destruct (machine_listing_failed_ready _ _ _ _ _ _ _ _ Hf)
      as (_ & _ & _ & _ & _ & Hcmd & _).
    split; [|split].
    + split; [intros _; exact Hcode|intros _].
      eapply transfer_starts_with_setup; [exact Hs|exact Hcmd].
    + intros Hn. destruct (Hn Hcode).
    + intros command sink Hin. exists r. split; [exact Hr|].
      eapply transfer_read_stream; [exact Hs|exact Hin].
  - assert (Hcode : ~ (code = syntax_error_command_unrecognized env \/
                       code = command_not_implemented env)).
    { intros H. apply (fallback_eligible_codes env code msg) in H. congruence. }
    rewrite (machine_listing_failed_run _ _ _ _ _ _ _ _ Hf), He.
    assert (Hnone : new_calls s2
              (snd ((reply <- raise (FTPServerError code msg);;
                     _clean_up_fetch reply;; gets response) (reset_sink s2))) = []).
    { apply new_calls_tail. simpl. rewrite app_nil_r. reflexivity. }
    rewrite Hnone. split; [|split].
    + split; [intros []|intros H; destruct (Hcode H)].
    + intros _. split; reflexivity.
    + intros command sink [].
Qed.

(** C10: when the machine-listing attempt raises a server-reply error
    whose code does not allow the fallback, the response body is
    nevertheless sought to its start and truncated before the error goes
    to the caller, who finds an empty sink whatever the failed attempt had
    written. *)
Theorem sink_reset_before_error_propagates
    env request file callback s s2 code msg :
  machine_listing_failed env request file callback s s2 code msg ->
  ~ (code = syntax_error_command_unrecognized env \/
     code = command_not_implemented env) ->
  fetch_file_listing env request file callback s
    = (Raise (FTPServerError code msg), reset_sink s2) /\
  Response.body (response (reset_sink s2))
    = Some {| Body.content := []; Body.position := 0 |}.
Proof.
  intros Hf Hcode.
  rewrite (machine_listing_failed_run _ _ _ _ _ _ _ _ Hf).
  destruct (fallback_eligible env (FTPServerError code msg)) eqn:He.
  - destruct (Hcode (proj1 (fallback_eligible_codes env code msg) He)).
  - split; reflexivity.
Qed.

(** C5: when the legacy attempt made by the fallback fails as well,
    [fetch_file_listing] raises the error of the legacy attempt, not the
    error of the machine-listing attempt, and stops there: the legacy
    attempt started at most one data transfer, nothing follows it, and a
    further [fetch] or [fetch_file_listing] on the session is refused by
    the assertion of [_init_stream]. *)
Theorem listing_fallback_single_shot
    env request file callback s s2 code msg e2 s3 :
  machine_listing_failed env request file callback s s2 code msg ->
  code = syntax_error_command_unrecognized env \/
  code = command_not_implemented env ->
  _get_list_listing env request (reset_sink s2) = (Raise e2, s3) ->
  fetch_file_listing env request file callback s = (Raise e2, s3) /\
  (attempts (new_calls s2 s3) <= 1)%nat /\
  (forall request' file' callback',
     fetch env request' file' callback' s3
       = (Raise AssertionError, new_response s3) /\
     fetch_file_listing env request' file' callback' s3
       = (Raise AssertionError, new_response s3)).
Proof.
  intros Hf Hcode Hl.
  pose proof (proj2 (fallback_eligible_codes env code msg) Hcode) as He.
  assert (Hout : fetch_file_listing env request file callback s = (Raise e2, s3)).
  { rewrite (machine_listing_failed_run _ _ _ _ _ _ _ _ Hf), He.
    unfold bind. rewrite Hl. reflexivity. }
  split; [exact Hout|]. split.
  - destruct (fallback_calls _ _ _ _ _ _ _ _ Hf He) as (r & res & resp & _ & Hs).
    rewrite Hout in Hs. simpl in Hs. eapply transfer_attempts, Hs.
  - destruct (machine_listing_failed_ready _ _ _ _ _ _ _ _ Hf)
      as (_ & c & _ & _ & Hc & _ & _).
    pose proof (get_list_listing_keep env request (reset_sink s2)) as (_ & K & _).
    rewrite Hl in K. simpl in K. rewrite Hc in K.
    intros request' file' callback'.
    exact (held_connection_refuses env request' file' callback' s3 c K).
Qed.

Lemma streamed_into_empty data resp :
  Response.body resp = Some Body.empty ->
  exists pos,
    Response.body (streamed data resp)
    = Some {| Body.content := data; Body.position := pos |}.
Proof.
  intros H. unfold streamed. destruct data as [|b l].
  - exists 0%nat. exact H.
  - rewrite H. unfold Body.write, Body.empty. simpl. rewrite app_nil_r.
    eexists. reflexivity.
Qed.

Lemma list_finish_body env reply s b reply' s' :
  Response.body (response s) = Some b ->
  list_finish env reply s = (Ok reply', s') ->
  trace s' = trace s /\
  exists pos,
    Response.body (response s')
    = Some {| Body.content := Body.content b; Body.position := pos |}.
Proof.
  intros H. unfold list_finish, body_op, body_read, bind, gets, modify, of_res, ret.
  simpl. rewrite H. simpl.
  destruct (parse_list_listing env _); intros Heq; simplify_eq; simpl.
  split; [reflexivity|]. eexists. reflexivity.
Qed.

Lemma clean_up_body reply s b resp s' :
  Response.body (response s) = Some b ->
  (_clean_up_fetch reply;; gets response) s = (Ok resp, s') ->
  trace s' = trace s /\
  Response.body resp
  = Some {| Body.content := Body.content b; Body.position := 0 |}.
Proof.
  intros H.
  unfold _clean_up_fetch, when_recorder, recorder_call, body_op, bind, gets,
    modify, ret.
  simpl. rewrite H. simpl.
  destruct (_recorder_session (self s)) eqn:E; simpl; rewrite ?E; simpl;
    intros Heq; simplify_eq; simpl; split; reflexivity.
Qed.

(** C4: when the machine-listing attempt fails with a server-reply error
    that allows the fallback, the legacy attempt starts from the response
    body sought to its start and truncated: the sink is empty when the
    legacy [LIST] transfer is handed it, and a response that
    [fetch_file_listing] then returns holds exactly the bytes that this
    transfer streamed, none of those the failed attempt had written. *)
Theorem sink_reset_before_legacy_attempt
    env request file callback s s2 code msg :
  machine_listing_failed env request file callback s s2 code msg ->
  code = syntax_error_command_unrecognized env \/
  code = command_not_implemented env ->
  let out := fetch_file_listing env request file callback s in
  out = (reply <- _get_list_listing env request;;
         _clean_up_fetch reply;;
         gets response) (reset_sink s2) /\
  Response.body (response (reset_sink s2))
    = Some {| Body.content := []; Body.position := 0 |} /\
  (forall command sink,
     In (EvReadStream command sink) (new_calls s2 (snd out)) ->
     sink = Some {| Body.content := []; Body.position := 0 |}) /\
  (forall resp,
     fst out = Ok resp ->
     exists tr command c,
       trace (snd out)
       = tr ++ [EvReadStream command
                  (Some {| Body.content := []; Body.position := 0 |});
                EvClose Data c; EvCheckIn Data c (Ok tt)] /\
       Response.body resp
       = Some {| Body.content := fst (commander_read_stream env tr command);
                 Body.position := 0 |}).
Proof.
  intros Hf Hcode out. subst out.
  pose proof (proj2 (fallback_eligible_codes env code msg) Hcode) as He.
  split; [|split; [|split]].
  - rewrite (machine_listing_failed_run _ _ _ _ _ _ _ _ Hf), He. reflexivity.
  - reflexivity.
  - intros command sink Hin.
    destruct (fallback_calls _ _ _ _ _ _ _ _ Hf He) as (r & res & resp & _ & Hs).
    apply (transfer_read_stream _ _ _ _ _ _ _ _ Hs Hin).
  - intros resp.
    destruct (machine_listing_failed_ready _ _ _ _ _ _ _ _ Hf)
      as (r & c & b & Hr & _ & _ & _).
    rewrite (machine_listing_failed_run _ _ _ _ _ _ _ _ Hf), He.
    destruct ((reply <- _get_list_listing env request;;
               _clean_up_fetch reply;; gets response) (reset_sink s2))
      as [rout sout] eqn:Hout.
    simpl. intros ->.
    unfold bind at 1 in Hout.
    rewrite (get_list_listing_unfold env request (reset_sink s2) r Hr) in Hout.
    destruct (fetch_with_command_transfer env (list_command r) (reset_sink s2))
      as (tail & Ht & Hs).
    destruct (_fetch_with_command env (list_command r) (reset_sink s2))
      as [[reply|e] s3]; simpl in Ht, Hs, Hout; [|discriminate Hout].
    inversion Hs as [| | | | |host port c' reply' Hread Hres Htail Hresp]; subst.
    assert (Hb3 : exists pos,
              Response.body (response s3)
              = Some {| Body.content :=
                          fst (commander_read_stream env
                                 (trace s2 ++ [EvSetupDataStream;
                                               EvCheckOut Data host port (Ok c');
                                               EvDataConnect c'])
                                 (list_command r));
                        Body.position := pos |}).
    { match goal with
      | H : streamed _ _ = response s3 |- _ => rewrite <- H
      end.
      apply streamed_into_empty. reflexivity. }
    destruct Hb3 as (pos & Hb3).
    destruct (list_finish env reply s3) as [[reply2|e] s4] eqn:Hfin;
      [|discriminate Hout].
    destruct (list_finish_body env reply s3 _ reply2 s4 Hb3 Hfin) as (Ht4 & pos4 & Hb4).
    destruct (clean_up_body reply2 s4 _ resp sout Hb4 Hout) as (Ht5 & Hbody).
    exists (trace s2 ++ [EvSetupDataStream; EvCheckOut Data host port (Ok c');
                         EvDataConnect c']), (list_command r), c'.
    split; [|exact Hbody].
    rewrite Ht5, Ht4, Ht. simpl. rewrite <- app_assoc. reflexivity.
Qed.

(** *** The fallback on the concrete servers *)

Lemma sample_machine_listing_failed mlsd_code others :
  machine_listing_failed (server_env mlsd_code others) 0%nat FileNone None
    (initial_state None sample_requests)
    (sample_failed (server_env mlsd_code others)) mlsd_code "MLSD rejected.".
Proof.
  exists (sample_prepared (server_env mlsd_code others)). split; reflexivity.
Defined.

Lemma listing_fallback_decision_witness :
  machine_listing_failed sample_env 0%nat FileNone None
    (initial_state None sample_requests) (sample_failed sample_env)
    502 "MLSD rejected." /\
  In EvSetupDataStream
    (new_calls (sample_failed sample_env)
       (snd (fetch_file_listing sample_env 0%nat FileNone None
               (initial_state None sample_requests)))).
Proof.
  split; [exact (sample_machine_listing_failed 502 transfer_complete)|].
  apply (proj1 (listing_fallback_decision sample_env 0%nat FileNone None
                  (initial_state None sample_requests) (sample_failed sample_env)
                  502 "MLSD rejected."
                  (sample_machine_listing_failed 502 transfer_complete))).
  right. reflexivity.
Defined.

Lemma sink_reset_before_error_propagates_witness :
  machine_listing_failed refusing_env 0%nat FileNone None
    (initial_state None sample_requests) (sample_failed refusing_env)
    550 "MLSD rejected." /\
  ~ (550 = 500 \/ 550 = 502) /\
  Response.body (response (sample_failed refusing_env))
    = Some {| Body.content := [Byte.x61; Byte.x62; Byte.x63]; Body.position := 3 |} /\
  fetch_file_listing refusing_env 0%nat FileNone None
    (initial_state None sample_requests)
    = (Raise (FTPServerError 550 "MLSD rejected."),
       reset_sink (sample_failed refusing_env)).
Proof.
  assert (Hcode : ~ (550 = 500 \/ 550 = 502)) by (intros [H|H]; discriminate H).
  split; [exact (sample_machine_listing_failed 550 transfer_complete)|].
  split; [exact Hcode|]. split; [reflexivity|].
  exact (proj1 (sink_reset_before_error_propagates refusing_env 0%nat FileNone None
                  (initial_state None sample_requests) (sample_failed refusing_env)
                  550 "MLSD rejected."
                  (sample_machine_listing_failed 550 transfer_complete) Hcode)).
Defined.

Lemma listing_fallback_single_shot_witness :
  machine_listing_failed failing_env 0%nat FileNone None
    (initial_state None sample_requests) (sample_failed failing_env)
    502 "MLSD rejected." /\
  fetch_file_listing failing_env 0%nat FileNone None
    (initial_state None sample_requests)
  = (Raise (FTPServerError 451 "Local error in processing."),
     snd (_get_list_listing failing_env 0%nat (reset_sink (sample_failed failing_env)))).
Proof.
  split;
    [exact (sample_machine_listing_failed 502
              (Raise (FTPServerError 451 "Local error in processing.")))|].
  assert (Hlegacy :
            _get_list_listing failing_env 0%nat
              (reset_sink (sample_failed failing_env))
            = (Raise (FTPServerError 451 "Local error in processing."),
               snd (_get_list_listing failing_env 0%nat
                      (reset_sink (sample_failed failing_env)))))
    by (vm_compute; reflexivity).
  exact (proj1 (listing_fallback_single_shot failing_env 0%nat FileNone None
                  (initial_state None sample_requests) (sample_failed failing_env)
                  502 "MLSD rejected."
                  (FTPServerError 451 "Local error in processing.")
                  (snd (_get_list_listing failing_env 0%nat
                          (reset_sink (sample_failed failing_env))))
                  (sample_machine_listing_failed 502
                     (Raise (FTPServerError 451 "Local error in processing.")))
                  (or_intror eq_refl) Hlegacy)).
Defined.

Lemma sink_reset_before_legacy_attempt_witness :
  machine_listing_failed sample_env 0%nat FileNone None
    (initial_state None sample_requests) (sample_failed sample_env)
    502 "MLSD rejected." /\
  Response.body (response (sample_failed sample_env))
    = Some {| Body.content := [Byte.x61; Byte.x62; Byte.x63]; Body.position := 3 |} /\
  forall command sink,
    In (EvReadStream command sink)
      (new_calls (sample_failed sample_env)
         (snd (fetch_file_listing sample_env 0%nat FileNone None
                 (initial_state None sample_requests)))) ->
    sink = Some {| Body.content := []; Body.position := 0 |}.
Proof.
  split; [exact (sample_machine_listing_failed 502 transfer_complete)|].
  split; [reflexivity|].
  exact (proj1 (proj2 (proj2
           (sink_reset_before_legacy_attempt sample_env 0%nat FileNone None
              (initial_state None sample_requests) (sample_failed sample_env)
              502 "MLSD rejected."
              (sample_machine_listing_failed 502 transfer_complete)
              (or_intror eq_refl))))).
Defined.

(** ** The recorder does not interfere *)

Lemma for_each_recorded {A} (l : list A) (f : A -> M St unit) :
  (forall a s calls, _recorder_session (self s) = Some calls ->
     exists calls',
       f a s = (Ok tt, set_self (set__recorder_session (Some calls')) s)) ->
  forall s calls, _recorder_session (self s) = Some calls ->
    exists calls',
      for_each l f s = (Ok tt, set_self (set__recorder_session (Some calls')) s).
Proof.
  intros Hf. induction l as [|a l IH]; intros s calls Hs; simpl.
  - exists calls. unfold ret. f_equal. destruct s as [[] ? ? ?]. simpl in *.
    rewrite Hs. reflexivity.
  - unfold bind. destruct (Hf a s calls Hs) as (c1 & ->).
    destruct (IH (set_self (set__recorder_session (Some c1)) s) c1 eq_refl)
      as (c2 & ->).
    exists c2. reflexivity.
Qed.

Lemma recorder_call_recorded e s calls :
  _recorder_session (self s) = Some calls ->
  exists calls',
    recorder_call e s = (Ok tt, set_self (set__recorder_session (Some calls')) s).
Proof.
  intros H. unfold recorder_call. rewrite H. eexists. reflexivity.
Qed.

Lemma notify_control_recorded env s calls :
  _recorder_session (self s) = Some calls ->
  exists calls',
    notify_control env s
    = (Ok tt, set_self (set__recorder_session (Some calls')) s).
Proof.
  intros H. unfold notify_control, bind, gets. simpl.
  destruct (_control_stream (self s)) as [stream|].
  - apply (for_each_recorded _ _) with (calls := calls); [|exact H].
    intros item s' c' H'. apply (for_each_recorded _ _) with (calls := c'); [|exact H'].
    intros cb s'' c'' H''. destruct cb. simpl.
    destruct (fst item); apply (recorder_call_recorded _ _ c''); exact H''.
  - exists calls. unfold ret. f_equal. destruct s as [[] ? ? ?]. simpl in *.
    rewrite H. reflexivity.
Qed.

Lemma for_each_no_handler {A B} (l : list A) (f : A -> B -> M St unit) s :
  for_each l (fun a => for_each [] (f a)) s = (Ok tt, s).
Proof.
  induction l as [|a l IH]; simpl; [reflexivity|].
  unfold bind. simpl. exact IH.
Qed.

Lemma notify_control_quiet env s :
  no_control_handler s -> notify_control env s = (Ok tt, s).
Proof.
  unfold no_control_handler, notify_control, bind, gets. simpl.
  destruct (_control_stream (self s)) as [stream|]; simpl; [|reflexivity].
  intros ->.
  apply (for_each_no_handler _
           (fun item cb => run_control_handler cb (fst item) (snd item))).
Qed.

Ltac quiet_side :=
  unfold no_control_handler; simpl;
  repeat match goal with
         | |- context [match option_map _ ?x with _ => _ end] => destruct x; simpl
         end;
  first [ reflexivity | exact I ].

Ltac ni_notify env :=
  match goal with
  | |- context [notify_control env ?st] =>
      first
        [ rewrite (notify_control_quiet env st) by quiet_side
        | let calls := fresh "calls" in
          let E := fresh "E" in
          edestruct (notify_control_recorded env st) as (calls & E);
          [ simpl; first [ reflexivity | eassumption ] | rewrite E; clear E ] ]
  end.

Ltac ni_recorder :=
  match goal with
  | H : _recorder_session (self ?s) = Some _
    |- context [_recorder_session (self ?s)] => rewrite H
  end.

Ltac ni_all env :=
  repeat (first [ ni_notify env
                | ni_recorder
                | run_lookup
                | run_case
                | progress unfold bind, ret, raise, gets, modify, of_res ];
          simpl in * ).

Ltac ni_finish Hrec :=
  first [ split; [eexists; reflexivity | reflexivity]
        | rewrite Hrec; split; [eexists; reflexivity | reflexivity] ].

Lemma fetch_with_command_unobserved env command :
  unobserved (_fetch_with_command env command).
Proof.
  intros s [calls Hrec].
  unfold _fetch_with_command, with_locals, try_finally, setup_data_stream,
    connection_factory, read_stream, lift_when_recorder, body_op,
    check_out, check_in, close_connection, commander_call, external_call,
    run_data_handler, recorder_call, record, recording,
    gets_local, modify_local, lift, bind, gets, modify, of_res, ret, raise.
  simpl. rewrite ?Hrec. simpl.
  ni_all env.
  all: ni_finish Hrec.
Qed.

Lemma prepare_fetch_unobserved env request file callback :
  unobserved (_prepare_fetch env request file callback).
Proof.
  intros s [calls Hrec].
  unfold _prepare_fetch, _init_stream, _log_in, when_recorder, get_request,
    check_out, commander_call, recorder_call, record, assert_, truthy, negb,
    recording, bind, gets, modify, of_res, ret, raise.
  simpl. rewrite ?Hrec. simpl.
  ni_all env.
  all: ni_finish Hrec.
Qed.

Lemma clean_up_fetch_unobserved reply : unobserved (_clean_up_fetch reply).
Proof.
  intros s [calls Hrec].
  unfold _clean_up_fetch, when_recorder, body_op, recorder_call, recording,
    bind, gets, modify, ret, raise.
  simpl. rewrite ?Hrec. simpl.
  destruct (Response.body (response s)); simpl; rewrite ?Hrec; simpl.
  all: ni_finish Hrec.
Qed.

Lemma unobserved_ret {A} (a : A) : unobserved (ret a).
Proof. intros s H. split; [exact H|reflexivity]. Qed.

Lemma unobserved_raise {A} (e : exn) : unobserved (@raise St A e).
Proof. intros s H. split; [exact H|reflexivity]. Qed.

Lemma unobserved_of_res {A} (r : Res A) : unobserved (@of_res St A r).
Proof. intros s H. split; [exact H|reflexivity]. Qed.

Lemma unobserved_gets {A} (f : St -> A) :
  (forall s, f (erase s) = f s) -> unobserved (gets f).
Proof. intros Hf s H. split; [exact H|]. unfold gets. rewrite Hf. reflexivity. Qed.

Lemma unobserved_modify (f : St -> St) :
  (forall s, erase (f s) = f (erase s)) ->
  (forall s, recording s -> recording (f s)) ->
  unobserved (modify f).
Proof.
  intros Hf Hr s H. split; [apply Hr, H|]. unfold modify. simpl.
  rewrite Hf. reflexivity.
Qed.

Lemma unobserved_bind {A B} (m : M St A) (k : A -> M St B) :
  unobserved m -> (forall a, unobserved (k a)) -> unobserved (bind m k).
Proof.
  intros Hm Hk s H. destruct (Hm s H) as [Hr He]. unfold bind. rewrite He.
  destruct (m s) as [[a|e] s1]; simpl in *.
  - apply Hk, Hr.
  - split; [exact Hr|reflexivity].
Qed.

Lemma unobserved_try_except {A} (body : M St A) catches (handler : exn -> M St A) :
  unobserved body -> (forall e, unobserved (handler e)) ->
  unobserved (try_except body catches handler).
Proof.
  intros Hb Hh s H. destruct (Hb s H) as [Hr He]. unfold try_except. rewrite He.
  destruct (body s) as [[a|e] s1]; simpl in *.
  - split; [exact Hr|reflexivity].
  - destruct (catches e); [apply Hh, Hr|split; [exact Hr|reflexivity]].
Qed.

Create HintDb unobserved_db.
#[global] Hint Resolve fetch_with_command_unobserved prepare_fetch_unobserved
  clean_up_fetch_unobserved : unobserved_db.

Ltac unobserved_step :=
  lazymatch goal with
  | |- unobserved (ret _) => apply unobserved_ret
  | |- unobserved (raise _) => apply unobserved_raise
  | |- unobserved (of_res _) => apply unobserved_of_res
  | |- unobserved (gets _) => apply unobserved_gets; intros ?; reflexivity
  | |- unobserved (modify _) =>
      apply unobserved_modify;
      [ intros ?; reflexivity | let H := fresh in intros ? H; exact H ]
  | |- unobserved (bind _ _) => apply unobserved_bind; [ | intros ? ]
  | |- unobserved (try_except _ _ _) =>
      apply unobserved_try_except; [ | intros ? ]
  | |- unobserved (match ?x with _ => _ end) => destruct x
  | |- unobserved (if ?x then _ else _) => destruct x
  | |- unobserved ?m =>
      first [ solve [eauto with unobserved_db]
            | let h := head_of m in is_session_def h; progress unfold h ]
  end.

Ltac unobserved_auto := repeat unobserved_step.

Lemma fetch_unobserved env request file callback :
  unobserved (fetch env request file callback).
Proof. unobserved_auto. Qed.

Lemma fetch_file_listing_unobserved env request file callback :
  unobserved (fetch_file_listing env request file callback).
Proof. unobserved_auto. Qed.

(** C6: a recorder only observes.  Run on the same session without the
    recorder (and so without the handlers that [_init_stream] registers
    for it), [fetch] and [fetch_file_listing] make the same calls and end
    the same way: they return the same response, with the same request,
    body, reply and files, or raise the same error, and leave the same
    state, the recorder apart.  In particular a new session without
    recorder and one with a recorder give the same result. *)
Theorem recorder_does_not_interfere env request file callback :
  (forall s,
     recording s ->
     fetch env request file callback (erase s)
     = (fst (fetch env request file callback s),
        erase (snd (fetch env request file callback s))) /\
     fetch_file_listing env request file callback (erase s)
     = (fst (fetch_file_listing env request file callback s),
        erase (snd (fetch_file_listing env request file callback s)))) /\
  (forall calls reqs,
     fst (fetch env request file callback (initial_state None reqs))
     = fst (fetch env request file callback (initial_state (Some calls) reqs)) /\
     fst (fetch_file_listing env request file callback (initial_state None reqs))
     = fst (fetch_file_listing env request file callback
              (initial_state (Some calls) reqs))).
Proof.
  split.
  - intros s H. split.
    + apply fetch_unobserved, H.
    + apply fetch_file_listing_unobserved, H.
  - intros calls reqs.
    assert (H : recording (initial_state (Some calls) reqs))
      by (eexists; reflexivity).
    destruct (fetch_unobserved env request file callback _ H) as [_ H1].
    destruct (fetch_file_listing_unobserved env request file callback _ H) as [_ H2].
    change (erase (initial_state (Some calls) reqs)) with (initial_state None reqs)
      in H1, H2.
    rewrite H1, H2. split; reflexivity.
Qed.

Lemma recorder_does_not_interfere_witness :
  recording (initial_state (Some []) sample_requests) /\
  fetch_file_listing sample_env 0%nat FileNone None
    (erase (initial_state (Some []) sample_requests))
  = (fst (fetch_file_listing sample_env 0%nat FileNone None
            (initial_state (Some []) sample_requests)),
     erase (snd (fetch_file_listing sample_env 0%nat FileNone None
                   (initial_state (Some []) sample_requests)))).
Proof.
  assert (H : recording (initial_state (Some []) sample_requests))
    by (eexists; reflexivity).
  split; [exact H|].
  exact (proj2 (proj1 (recorder_does_not_interfere sample_env 0%nat FileNone None)
                  (initial_state (Some []) sample_requests) H)).
Defined.

(** * Further properties of the session *)

(** ** The outcome as a function of the collaborators' answers *)

Ltac ready_notify env :=
  match goal with
  | |- context [notify_control env ?st] =>
      first
        [ rewrite (notify_control_quiet env st) by (simpl; reflexivity)
        | let calls := fresh "calls" in
          let E := fresh "E" in
          edestruct (notify_control_recorded env st) as (calls & E);
          [ simpl; reflexivity | rewrite E; clear E ] ]
  end.

Ltac ready_all env :=
  repeat (first [ ready_notify env
                | run_lookup
                | run_case
                | progress unfold bind, ret, raise, gets, modify, of_res ];
          simpl in * ).

Ltac outcome_eq :=
  unfold transfer_outcome, released, after_calls;
  repeat match goal with
         | u : unit |- _ => destruct u
         end;
  rewrite <- ?app_assoc in *; simpl in *;
  repeat match goal with
         | H : Response.body ?r = Some _, H' : context [Response.body ?r] |- _ =>
             rewrite H in H'
         end;
  simplify_eq/=;
  repeat match goal with
         | H : ?x = _ |- context [?x] =>
             rewrite H; simpl; rewrite <- ?app_assoc; simpl
         end.

Lemma fetch_with_command_outcome env command s :
  ready s ->
  fst (_fetch_with_command env command s)
  = fst (transfer_outcome env command (trace s) (Response.body (response s))) /\
  trace (snd (_fetch_with_command env command s))
  = trace s
    ++ snd (transfer_outcome env command (trace s) (Response.body (response s))).
Proof.
  destruct s as [[conn cs cmd rq rec] reqs resp tr].
  intros ([cm Hcm] & [b Hb] & Hh). simpl in *. subst cmd.
  assert (Hcs : is_Some rec \/ match cs with
                                | Some stream => control_observer stream = []
                                | None => True end).
  { destruct Hh as [H|H]; [left; exact H|right; exact H]. }
  clear Hh.
  unfold _fetch_with_command, with_locals, try_finally, setup_data_stream,
    connection_factory, read_stream, lift_when_recorder, body_op,
    check_out, check_in, close_connection, commander_call, external_call,
    run_data_handler, recorder_call, record,
    gets_local, modify_local, lift, bind, gets, modify, of_res, ret, raise.
  simpl. rewrite Hb.
  destruct rec as [calls|].
  - ready_all env.
    all: outcome_eq.
    all: split; reflexivity.
  - destruct Hcs as [[? [=]]|Hcs].
    destruct cs as [[cc obs]|]; simpl in Hcs; subst.
    + ready_all env.
      all: outcome_eq.
      all: split; reflexivity.
    + ready_all env.
      all: outcome_eq.
      all: split; reflexivity.
Qed.

Ltac preparation_eq :=
  unfold preparation, login_username, login_password;
  repeat match goal with
         | u : unit |- _ => destruct u
         end;
  rewrite <- ?app_assoc in *; simpl in *;
  simplify_eq/=;
  repeat match goal with
         | H : ?x = _ |- context [?x] =>
             rewrite H; simpl; rewrite <- ?app_assoc; simpl
         end.

Lemma prepare_fetch_outcome env request file callback s :
  fst (_prepare_fetch env request file callback s) = fst (preparation env request s) /\
  trace (snd (_prepare_fetch env request file callback s))
  = trace s ++ snd (preparation env request s).
Proof.
  destruct s as [[conn cs cmd rq rec] reqs resp tr].
  unfold _prepare_fetch, _init_stream, _log_in, when_recorder, get_request,
    check_out, commander_call, recorder_call, record, assert_, truthy, negb,
    bind, gets, modify, of_res, ret, raise.
  simpl.
  destruct rec as [calls|]; simpl.
  - ready_all env.
    all: preparation_eq.
    all: split; [reflexivity | rewrite ?app_nil_r; reflexivity].
  - ready_all env.
    all: preparation_eq.
    all: split; [reflexivity | rewrite ?app_nil_r; reflexivity].
Qed.

Ltac done_shape :=
  intros [= <-];
  do 2 eexists;
  repeat match goal with
         | |- _ /\ _ => split
         end;
  try eassumption; try reflexivity;
  unfold ready, recording, no_control_handler, prepared_response, chosen_file,
    sink_of; simpl;
  repeat match goal with
         | H : ?x = _ |- context [?x] => rewrite H; simpl
         end;
  try reflexivity;
  repeat match goal with
         | |- _ /\ _ => split
         end;
  try (eexists; reflexivity);
  first [ left; eexists; reflexivity | right; reflexivity ].

Lemma prepare_fetch_done env request file callback s s1 :
  _prepare_fetch env request file callback s = (Ok tt, s1) ->
  exists r c,
    _connection (self s) = None /\
    requests s !! request = Some r /\
    pool_check_out env (trace s)
      (hostname (Request.url_info r)) (port (Request.url_info r)) = Ok c /\
    _connection (self s1) = Some c /\
    requests s1
    = alter (Request.set_address (Connection.address c)) request (requests s) /\
    response s1 = prepared_response request file callback r c (response s) /\
    ready s1.
Proof.
  destruct s as [[conn cs cmd rq rec] reqs resp tr].
  unfold _prepare_fetch, _init_stream, _log_in, when_recorder, get_request,
    check_out, commander_call, recorder_call, record, assert_, truthy, negb,
    bind, gets, modify, of_res, ret, raise.
  simpl.
  destruct rec as [calls|]; simpl.
  - ready_all env.
    all: first [ solve [intros [=]] | done_shape ].
  - ready_all env.
    all: first [ solve [intros [=]] | done_shape ].
Qed.

(** X1: the result of [_prepare_fetch] and the calls it makes are those of
    [preparation]: it is refused without any call when the session holds a
    connection; otherwise the first of the check-out, the reconnect and the
    login that raises ends it with that error, and nothing is called after
    it.  The file, the callback and the recorder play no part. *)
Theorem preparation_is_decided_in_order env request file callback s :
  fst (_prepare_fetch env request file callback s) = fst (preparation env request s) /\
  new_calls s (snd (_prepare_fetch env request file callback s))
  = snd (preparation env request s).
Proof.
  destruct (prepare_fetch_outcome env request file callback s) as [H1 H2].
  split; [exact H1|apply new_calls_tail, H2].
Qed.

(** X2: from a state that [_prepare_fetch] leaves, the result of
    [_fetch_with_command] and the calls it makes are those of
    [transfer_outcome]: the first of the negotiation, the check-out and
    the connection of the data connection and the transfer that raises
    ends the [try] block, and the release of an acquired connection then
    decides the result. *)
Theorem transfer_is_decided_in_order env command s :
  ready s ->
  fst (_fetch_with_command env command s)
  = fst (transfer_outcome env command (trace s) (Response.body (response s))) /\
  new_calls s (snd (_fetch_with_command env command s))
  = snd (transfer_outcome env command (trace s) (Response.body (response s))).
Proof.
  intros H.
  destruct (fetch_with_command_outcome env command s H) as [H1 H2].
  split; [exact H1|apply new_calls_tail, H2].
Qed.

(** ** A fetch that returns *)

Lemma streamed_received data resp sink :
  Response.body resp = Some sink ->
  streamed data resp =
  match data with [] => resp | _ => Response.set_body (received data sink) resp end.
Proof.
  intros H. unfold streamed, received. rewrite H. destruct data; reflexivity.
Qed.

Lemma preparation_new_response env request s :
  preparation env request (new_response s) = preparation env request s.
Proof. reflexivity. Qed.

(** A successful preparation, in full. *)
Lemma prepare_fetch_success env request file callback s s1 :
  _prepare_fetch env request file callback s = (Ok tt, s1) ->
  exists r c,
    _connection (self s) = None /\
    requests s !! request = Some r /\
    pool_check_out env (trace s)
      (hostname (Request.url_info r)) (port (Request.url_info r)) = Ok c /\
    trace s1
    = trace s ++ [EvCheckOut Control (hostname (Request.url_info r))
                    (port (Request.url_info r)) (Ok c);
                  EvReconnect;
                  EvLogin (login_username r) (login_password r)] /\
    _connection (self s1) = Some c /\
    requests s1
    = alter (Request.set_address (Connection.address c)) request (requests s) /\
    response s1 = prepared_response request file callback r c (response s) /\
    ready s1.
Proof.
  intros H.
  destruct (prepare_fetch_done env request file callback s s1 H)
    as (r & c & Hconn & Hreq & Hco & Hc1 & Hr1 & Hresp & Hready).
  exists r, c.
  refine (conj Hconn (conj Hreq (conj Hco (conj _
            (conj Hc1 (conj Hr1 (conj Hresp Hready))))))).
  destruct (prepare_fetch_outcome env request file callback s) as [Hres Htr].
  rewrite H in Hres, Htr. simpl in Hres, Htr. rewrite Htr. f_equal.
  revert Hres. unfold preparation.
  rewrite Hconn, Hreq, Hco.
  destruct (commander_reconnect env _); [|discriminate].
  intros _. reflexivity.
Qed.

Lemma fetch_body_run env request s r :
  requests s !! request = Some r ->
  fetch_body env request s =
  match _fetch_with_command env (retr_command r) s with
  | (Ok reply, s2) => (_clean_up_fetch reply;; gets response) s2
  | (Raise e, s2) => (Raise e, s2)
  end.
Proof.
  intros H. unfold fetch_body, get_request. unfold bind at 1. unfold gets.
  unfold bind at 1. rewrite H. unfold ret. unfold bind at 1. reflexivity.
Qed.

(** [_clean_up_fetch] on a response that has a body. *)
Lemma clean_up_run reply s b :
  Response.body (response s) = Some b ->
  exists rec,
    (_clean_up_fetch reply;; gets response) s
    = (Ok (Response.set_reply reply
             (Response.set_body (Body.seek 0 b) (response s))),
       set_self (set__recorder_session rec)
         (set_response
            (fun resp => Response.set_reply reply
                           (Response.set_body (Body.seek 0 b) resp)) s)).
Proof.
  intros H.
  unfold _clean_up_fetch, when_recorder, recorder_call, body_op, bind, gets,
    modify, ret.
  simpl. rewrite H. simpl.
  destruct s as [[conn cs cmd rq [calls|]] reqs resp tr]; simpl in *;
    eexists; reflexivity.
Qed.

Lemma fetch_success env request file callback s resp s' :
  fetch env request file callback s = (Ok resp, s') ->
  exists r c address dc reply,
    _connection (self s) = None /\
    requests s !! request = Some r /\
    pool_check_out env (trace s)
      (hostname (Request.url_info r)) (port (Request.url_info r)) = Ok c /\
    let sink := sink_of (chosen_file request file callback r c Response.new) in
    let before :=
      [EvCheckOut Control (hostname (Request.url_info r))
         (port (Request.url_info r)) (Ok c);
       EvReconnect;
       EvLogin (login_username r) (login_password r);
       EvSetupDataStream;
       EvCheckOut Data (fst address) (snd address) (Ok dc);
       EvDataConnect dc] in
    let data := fst (commander_read_stream env (trace s ++ before) (retr_command r)) in
    snd (commander_read_stream env (trace s ++ before) (retr_command r)) = Ok reply /\
    trace s'
    = trace s ++ before
      ++ [EvReadStream (retr_command r) (Some sink);
          EvClose Data dc; EvCheckIn Data dc (Ok tt)] /\
    response s' = resp /\
    resp = {| Response.request := Some request;
              Response.body := Some (Body.seek 0 (received data sink));
              Response.reply := Some reply;
              Response.files := None |} /\
    _connection (self s') = Some c.
Proof.
  rewrite fetch_unfold.
  destruct (_prepare_fetch env request file callback (new_response s))
    as [[[]|e] s1] eqn:Hp; [|discriminate].
  destruct (prepare_fetch_success _ _ _ _ _ _ Hp)
    as (r & c & Hconn & Hreq & Hco & Htr1 & Hc1 & Hr1 & Hresp & Hready).
  simpl in Hconn, Hreq, Hco, Htr1, Hr1, Hresp.
  assert (Hreq1 : requests s1 !! request
                  = Some (Request.set_address (Connection.address c) r))
    by (rewrite Hr1, lookup_alter_eq, Hreq; reflexivity).
  rewrite (fetch_body_run env request s1 _ Hreq1).
  change (retr_command (Request.set_address (Connection.address c) r))
    with (retr_command r).
  destruct (fetch_with_command_transfer env (retr_command r) s1) as (tail & Ht & Htrans).
  pose proof (fetch_with_command_keep env (retr_command r) s1) as (_ & Hk & _ & _).
  destruct (_fetch_with_command env (retr_command r) s1) as [[reply|e] s2];
    simpl in *; [|discriminate].
  inversion Htrans as [ | | | | | host port dc reply' Hreply]; subst.
  assert (Hsink : Response.body (response s1)
                  = Some (sink_of (chosen_file request file callback r c Response.new)))
    by (rewrite Hresp; reflexivity).
  pose proof (streamed_received
                (fst (commander_read_stream env
                   (trace s1 ++ [EvSetupDataStream;
                                 EvCheckOut Data host port (Ok dc);
                                 EvDataConnect dc]) (retr_command r)))
                _ _ Hsink) as Hstr.
  assert (Hb2 : Response.body (response s2)
                = Some (received
                          (fst (commander_read_stream env
                             (trace s1 ++ [EvSetupDataStream;
                                           EvCheckOut Data host port (Ok dc);
                                           EvDataConnect dc]) (retr_command r)))
                          (sink_of (chosen_file request file callback r c Response.new)))).
  { match goal with H : streamed _ _ = response s2 |- _ => rewrite <- H end.
    rewrite Hstr. unfold received.
    destruct (fst (commander_read_stream env _ _)); [exact Hsink|reflexivity]. }
  destruct (clean_up_run reply s2 _ Hb2) as (rec & ->).
  intros [= <- <-].
  exists r, c, (host, port), dc, reply. simpl.
  rewrite Htr1 in *. rewrite <- !app_assoc in *. simpl in *.
  rewrite Hsink in Ht.
  repeat match goal with |- _ /\ _ => split end; try assumption; try reflexivity.
  - match goal with H : streamed _ _ = response s2 |- _ => rewrite <- H end.
    rewrite Hstr, Hresp. unfold received, prepared_response.
    destruct (fst (commander_read_stream env _ _)); reflexivity.
  - rewrite Hk. exact Hc1.
Qed.

(** X3: a [fetch] that returns has made exactly nine calls, in this order:
    the check-out of the control connection for the host and port of the
    request, the reconnect, the login, the set-up of the data stream, the
    check-out of the data connection, its connection, the [RETR] of the
    request's path into the sink (the file given, or the one the callback
    chose), the close of the data connection and its check-in. *)
Theorem fetch_calls_in_order env request file callback s resp s' :
  fetch env request file callback s = (Ok resp, s') ->
  exists r c address dc,
    requests s !! request = Some r /\
    new_calls s s'
    = [EvCheckOut Control (hostname (Request.url_info r))
         (port (Request.url_info r)) (Ok c);
       EvReconnect;
       EvLogin (login_username r) (login_password r);
       EvSetupDataStream;
       EvCheckOut Data (fst address) (snd address) (Ok dc);
       EvDataConnect dc;
       EvReadStream (retr_command r)
         (Some (sink_of (chosen_file request file callback r c Response.new)));
       EvClose Data dc;
       EvCheckIn Data dc (Ok tt)].
Proof.
  intros H.
  destruct (fetch_success env request file callback s resp s' H)
    as (r & c & address & dc & reply & _ & Hreq & _ & _ & Htr & _).
  exists r, c, address, dc. split; [exact Hreq|].
  apply new_calls_tail. exact Htr.
Qed.

(** X4: the response a [fetch] returns is the one it leaves in place; its
    request is the request given, its reply is the reply the commander
    gave to [RETR], it has no file listing, and its body is the sink with
    the streamed bytes written at the position the sink was at, sought back
    to its start.  With a new, empty sink the body holds exactly the
    streamed bytes. *)
Theorem fetch_response env request file callback s resp s' :
  fetch env request file callback s = (Ok resp, s') ->
  exists r c before after data reply,
    requests s !! request = Some r /\
    pool_check_out env (trace s)
      (hostname (Request.url_info r)) (port (Request.url_info r)) = Ok c /\
    let sink := sink_of (chosen_file request file callback r c Response.new) in
    new_calls s s'
    = before ++ EvReadStream (retr_command r) (Some sink) :: after /\
    commander_read_stream env (trace s ++ before) (retr_command r)
    = (data, Ok reply) /\
    resp = {| Response.request := Some request;
              Response.body := Some (Body.seek 0 (received data sink));
              Response.reply := Some reply;
              Response.files := None |} /\
    response s' = resp /\
    (sink = Body.empty ->
     Response.body resp
     = Some {| Body.content := data; Body.position := 0 |}).
Proof.
  intros H.
  destruct (fetch_success env request file callback s resp s' H)
    as (r & c & address & dc & reply & _ & Hreq & Hco & Hreply & Htr & Hresp & Heq & _).
  simpl in Hreply, Htr, Heq.
  exists r, c,
    [EvCheckOut Control (hostname (Request.url_info r))
       (port (Request.url_info r)) (Ok c);
     EvReconnect;
     EvLogin (login_username r) (login_password r);
     EvSetupDataStream;
     EvCheckOut Data (fst address) (snd address) (Ok dc);
     EvDataConnect dc],
    [EvClose Data dc; EvCheckIn Data dc (Ok tt)].
  eexists _, reply.
  split; [exact Hreq|]. split; [exact Hco|]. simpl.
  split; [apply new_calls_tail; rewrite Htr; reflexivity|].
  split; [rewrite <- Hreply; apply surjective_pairing|].
  split; [exact Heq|]. split; [exact Hresp|].
  intros Hsink. rewrite Heq, Hsink. simpl. f_equal. unfold Body.seek. f_equal.
  unfold received, Body.write, Body.empty.
  destruct (fst (commander_read_stream env _ _)) as [|b l]; [reflexivity|].
  simpl. rewrite app_nil_r. reflexivity.
Qed.

#[global] Instance same_control_stream_preorder : PreOrder same_control_stream.
Proof.
  split.
  - intros s. reflexivity.
  - intros a b c H1 H2. unfold same_control_stream in *. congruence.
Qed.

Ltac same_control_stream_leaf := unfold same_control_stream; reflexivity.

Lemma fetch_with_command_same_control_stream env command :
  stable same_control_stream (_fetch_with_command env command).
Proof. stable_auto same_control_stream_leaf. Qed.

Lemma fetch_with_command_ready env command s :
  ready s -> ready (snd (_fetch_with_command env command s)).
Proof.
  intros (Hc & Hb & Hh).
  pose proof (fetch_with_command_keep env command s) as (_ & _ & Hk & _).
  pose proof (fetch_with_command_keeps_body env command s Hb) as Hb'.
  pose proof (fetch_with_command_same_control_stream env command s) as Hs.
  repeat split.
  - rewrite Hk. exact Hc.
  - exact Hb'.
  - destruct Hh as [Hr|Hq].
    + left. apply (fetch_with_command_unobserved env command s Hr).
    + right. unfold no_control_handler in *. rewrite Hs. exact Hq.
Qed.

Lemma fetch_with_command_returns env command s :
  answers_normally env -> ready s ->
  exists reply s2,
    _fetch_with_command env command s = (Ok reply, s2) /\ ready s2.
Proof.
  intros (Hco & _ & _ & Hneg & Hconn & Hread & Hclose & Hin) Hready.
  pose proof (fetch_with_command_ready env command s Hready) as Hready2.
  destruct (fetch_with_command_outcome env command s Hready) as [Hres _].
  destruct (_fetch_with_command env command s) as [res s2]. simpl in *.
  revert Hres. unfold transfer_outcome.
  destruct (Hneg (trace s)) as [a ->].
  destruct (Hco (trace s ++ [EvSetupDataStream]) (fst a) (snd a)) as [dc ->].
  rewrite Hconn. unfold after_calls, released. rewrite Hclose. simpl.
  rewrite Hin by (rewrite <- !app_assoc; simpl; held_after_check_out).
  simpl.
  match goal with
  | |- context [commander_read_stream env ?t ?c] =>
      destruct (Hread t c) as [reply ->]
  end.
  intros ->. exists reply, s2. split; [reflexivity|exact Hready2].
Qed.

Lemma prepare_fetch_returns env request file callback s :
  answers_normally env ->
  _connection (self s) = None -> is_Some (requests s !! request) ->
  exists s1, _prepare_fetch env request file callback s = (Ok tt, s1).
Proof.
  intros (Hco & Hrec & Hlog & _) Hconn [r Hreq].
  destruct (prepare_fetch_outcome env request file callback s) as [Hres _].
  destruct (_prepare_fetch env request file callback s) as [res s1]. simpl in *.
  revert Hres. unfold preparation. rewrite Hconn, Hreq.
  destruct (Hco (trace s) (hostname (Request.url_info r)) (port (Request.url_info r)))
    as [c ->].
  rewrite Hrec, Hlog. simpl. intros ->. exists s1. reflexivity.
Qed.

(** X5: when no collaborator raises (the pool on check-out, the commander
    on reconnect, login, set-up and transfer, close and check-in), a session
    that holds no control connection returns a response from [fetch] and
    from [fetch_file_listing] for every request: no error arises in the
    session itself. *)
Theorem fetch_returns env request file callback s :
  answers_normally env ->
  _connection (self s) = None ->
  is_Some (requests s !! request) ->
  (exists resp s', fetch env request file callback s = (Ok resp, s')) /\
  (exists resp s', fetch_file_listing env request file callback s = (Ok resp, s')).
Proof.
  intros Henv Hconn Hreq.
  destruct (prepare_fetch_returns env request file callback (new_response s)
              Henv Hconn Hreq) as [s1 Hp].
  destruct (prepare_fetch_success _ _ _ _ _ _ Hp)
    as (r & c & _ & Hr & _ & _ & _ & Hr1 & _ & Hready).
  simpl in Hr.
  assert (Hreq1 : requests s1 !! request
                  = Some (Request.set_address (Connection.address c) r))
    by (rewrite Hr1, lookup_alter_eq; simpl; rewrite Hr; reflexivity).
  split.
  - rewrite fetch_unfold, Hp, (fetch_body_run env request s1 _ Hreq1).
    destruct (fetch_with_command_returns env
                (retr_command (Request.set_address (Connection.address c) r))
                s1 Henv Hready) as (reply & s2 & -> & (_ & [b Hb] & _)).
    destruct (clean_up_run reply s2 b Hb) as (rec & ->).
    eauto.
  - rewrite fetch_file_listing_unfold, Hp.
    unfold listing_body, try_except, _get_machine_listing, get_request.
    unfold bind at 1. unfold bind at 1. unfold bind at 1. unfold gets at 1.
    unfold bind at 1. rewrite Hreq1. unfold ret at 1.
    destruct (fetch_with_command_returns env
                {| name := "MLSD";
                   argument := path (Request.url_info
                     (Request.set_address (Connection.address c) r)) |}
                s1 Henv Hready) as (reply & s2 & -> & (_ & [b Hb] & _)).
    unfold body_op, body_read, bind, gets, modify, ret. simpl. rewrite Hb. simpl.
    unfold _clean_up_fetch, when_recorder, recorder_call, body_op, bind, gets,
      modify, ret. simpl.
    destruct (_recorder_session (self s2)) eqn:E; simpl; rewrite ?E; simpl; eauto.
Qed.

(** ** Failures of the preparation, and the control connection *)

(** X6: when the pool refuses the control connection, [fetch] and
    [fetch_file_listing] raise the pool's error after that one call and
    change nothing else: the session still holds no connection, and the
    request has gained no address. *)
Theorem failed_check_out_acquires_nothing env request file callback s r e :
  _connection (self s) = None ->
  requests s !! request = Some r ->
  pool_check_out env (trace s)
    (hostname (Request.url_info r)) (port (Request.url_info r)) = Raise e ->
  let refused :=
    (Raise e,
     set_trace
       (fun tr => tr ++ [EvCheckOut Control (hostname (Request.url_info r))
                           (port (Request.url_info r)) (Raise e)])
       (new_response s)) in
  fetch env request file callback s = refused /\
  fetch_file_listing env request file callback s = refused.
Proof.
  intros Hconn Hreq Hco.
  unfold fetch, fetch_file_listing, _prepare_fetch, _init_stream, get_request,
    check_out, record, assert_, bind, gets, modify, of_res, ret.
  simpl. rewrite Hconn. simpl. rewrite Hreq. simpl. rewrite Hco.
  split; reflexivity.
Qed.

(** The state a preparation leaves once the pool has handed out the
    control connection, whatever happens afterwards. *)
Lemma prepare_fetch_connected env request file callback s r c :
  _connection (self s) = None ->
  requests s !! request = Some r ->
  pool_check_out env (trace s)
    (hostname (Request.url_info r)) (port (Request.url_info r)) = Ok c ->
  let s1 := snd (_prepare_fetch env request file callback s) in
  _connection (self s1) = Some c /\
  requests s1
  = alter (Request.set_address (Connection.address c)) request (requests s).
Proof.
  intros Hconn Hreq Hco s1.
  destruct (prepare_fetch_prepared env request file callback s) as (tail & Ht & Hp).
  destruct (prepare_fetch_outcome env request file callback s) as [_ Htr].
  fold s1 in Ht, Hp, Htr. rewrite Ht in Htr. apply app_inv_head in Htr.
  revert Htr. unfold preparation. rewrite Hconn, Hreq. simpl. rewrite Hco.
  revert Hp. generalize (fst (_prepare_fetch env request file callback s)).
  generalize s1. clear s1 Ht. intros s1 res Hp.
  destruct Hp as [e' | r' e' _ Hr' Ho | r' c' res rest s1 _ Hr' Ho _ Hc1 _ _ Hr1 _].
  - destruct (commander_reconnect env _); discriminate.
  - rewrite Hreq in Hr'. simplify_eq. rewrite Hco in Ho. discriminate.
  - rewrite Hreq in Hr'. simplify_eq. rewrite Hco in Ho. simplify_eq.
    intros _. split; assumption.
Qed.

Lemma preparation_failed env request file callback s e :
  fst (preparation env request s) = Raise e ->
  let s1 := snd (_prepare_fetch env request file callback (new_response s)) in
  fetch env request file callback s = (Raise e, s1) /\
  fetch_file_listing env request file callback s = (Raise e, s1) /\
  trace s1 = trace s ++ snd (preparation env request s).
Proof.
  intros H s1.
  destruct (prepare_fetch_outcome env request file callback (new_response s))
    as [Hres Htr].
  rewrite preparation_new_response in Hres, Htr. rewrite H in Hres.
  rewrite fetch_unfold, fetch_file_listing_unfold. fold s1 in Htr.
  unfold s1.
  destruct (_prepare_fetch env request file callback (new_response s)) as [res s1'].
  simpl in *. subst res. repeat split. exact Htr.
Qed.

(** X7: when the reconnect raises, [fetch] and [fetch_file_listing] raise
    its error; the login is not attempted, no data transfer is started,
    and the session keeps the control connection it was handed. *)
Theorem failed_reconnect_skips_login env request file callback s r c e :
  _connection (self s) = None ->
  requests s !! request = Some r ->
  let check_out :=
    EvCheckOut Control (hostname (Request.url_info r))
      (port (Request.url_info r)) (Ok c) in
  pool_check_out env (trace s)
    (hostname (Request.url_info r)) (port (Request.url_info r)) = Ok c ->
  commander_reconnect env (trace s ++ [check_out]) = Raise e ->
  forall out,
    out = fetch env request file callback s \/
    out = fetch_file_listing env request file callback s ->
    fst out = Raise e /\
    new_calls s (snd out) = [check_out; EvReconnect] /\
    _connection (self (snd out)) = Some c.
Proof.
  intros Hconn Hreq check_out Hco Hrec out Hout.
  assert (Hprep : preparation env request s = (Raise e, [check_out; EvReconnect])).
  { unfold preparation. rewrite Hconn, Hreq. simpl. rewrite Hco. fold check_out.
    rewrite Hrec. reflexivity. }
  destruct (preparation_failed env request file callback s e) as (Hf & Hl & Htr);
    [rewrite Hprep; reflexivity|].
  destruct (prepare_fetch_connected env request file callback (new_response s) r c
              Hconn Hreq Hco) as [Hc1 Hr1].
  rewrite Hprep in Htr. simpl in Htr.
  assert (out = (Raise e, snd (_prepare_fetch env request file callback (new_response s))))
    as -> by (destruct Hout as [->| ->]; assumption).
  simpl. split; [reflexivity|]. split; [apply new_calls_tail, Htr|exact Hc1].
Qed.

(** X8: when the login raises, [fetch] and [fetch_file_listing] raise its
    error after the check-out, the reconnect and the login, without
    starting a data transfer; the session keeps the control connection,
    and the request keeps the address it was assigned. *)
Theorem failed_login_keeps_control_connection env request file callback s r c e :
  _connection (self s) = None ->
  requests s !! request = Some r ->
  let check_out :=
    EvCheckOut Control (hostname (Request.url_info r))
      (port (Request.url_info r)) (Ok c) in
  let login := EvLogin (login_username r) (login_password r) in
  pool_check_out env (trace s)
    (hostname (Request.url_info r)) (port (Request.url_info r)) = Ok c ->
  commander_reconnect env (trace s ++ [check_out]) = Ok tt ->
  commander_login env (trace s ++ [check_out; EvReconnect])
    (login_username r) (login_password r) = Raise e ->
  forall out,
    out = fetch env request file callback s \/
    out = fetch_file_listing env request file callback s ->
    fst out = Raise e /\
    new_calls s (snd out) = [check_out; EvReconnect; login] /\
    _connection (self (snd out)) = Some c /\
    requests (snd out) !! request
    = Some (Request.set_address (Connection.address c) r).
Proof.
  intros Hconn Hreq check_out login Hco Hrec Hlog out Hout.
  assert (Hprep : preparation env request s = (Raise e, [check_out; EvReconnect; login])).
  { unfold preparation. rewrite Hconn, Hreq. simpl. rewrite Hco. fold check_out.
    rewrite Hrec, Hlog. reflexivity. }
  destruct (preparation_failed env request file callback s e) as (Hf & Hl & Htr);
    [rewrite Hprep; reflexivity|].
  destruct (prepare_fetch_connected env request file callback (new_response s) r c
              Hconn Hreq Hco) as [Hc1 Hr1].
  rewrite Hprep in Htr. simpl in Htr.
  assert (out = (Raise e, snd (_prepare_fetch env request file callback (new_response s))))
    as -> by (destruct Hout as [->| ->]; assumption).
  simpl. split; [reflexivity|]. split; [apply new_calls_tail, Htr|].
  split; [exact Hc1|].
  rewrite Hr1. simpl. rewrite lookup_alter_eq, Hreq. reflexivity.
Qed.

Lemma transfer_control_neutral e : transfer_event e -> control_neutral e.
Proof.
  destruct e as [[] ? ? []|[] ? []|[] ?| | | | |]; simpl; intros H;
    try (destruct H); (split; [intros []|intros h; reflexivity]).
Qed.

Lemma fold_held_neutral r tail h :
  Forall (fun e => forall h, held_step r h e = h) tail ->
  fold_left (held_step r) tail h = h.
Proof.
  intros HF. revert h. induction HF as [|e l He _ IH]; intros h; [reflexivity|].
  simpl. rewrite He. apply IH.
Qed.

Lemma extends_control_neutral s s' :
  extends control_neutral s s' ->
  Forall (fun e => ~ control_release e) (new_calls s s') /\
  held Control (trace s') = held Control (trace s).
Proof.
  intros (tail & Ht & HF). rewrite (new_calls_tail _ _ _ Ht), Ht, held_app. split.
  - eapply Forall_impl; [exact HF|]. intros e He. apply He.
  - apply fold_held_neutral. eapply Forall_impl; [exact HF|]. intros e He. apply He.
Qed.

(** What the preparation does to the control connections held. *)
Lemma prepare_fetch_control env request file callback s :
  let s1 := snd (_prepare_fetch env request file callback s) in
  Forall (fun e => ~ control_release e) (new_calls s s1) /\
  (_connection (self s) = None ->
   held Control (trace s1)
   = match _connection (self s1) with
     | Some c => c :: held Control (trace s)
     | None => held Control (trace s)
     end).
Proof.
  intros s1.
  destruct (prepare_fetch_prepared env request file callback s) as (tail & Ht & Hp).
  fold s1 in Ht, Hp. rewrite (new_calls_tail _ _ _ Ht), Ht, held_app.
  revert Hp. generalize (fst (_prepare_fetch env request file callback s)).
  generalize s1. clear s1 Ht. intros s1 res Hp.
  destruct Hp as [e | r e Hc _ _ | r c res rest s1 _ _ _ Hrest Hc1 _ _ _ _].
  - split; [constructor|]. intros ->. reflexivity.
  - split; [repeat constructor; intros []|]. intros _. simpl. rewrite Hc. reflexivity.
  - assert (HF : Forall control_neutral rest).
    { eapply Forall_prefix; [exact Hrest|].
      repeat constructor; first [intros []|intros h; reflexivity]. }
    split.
    + constructor; [intros []|]. eapply Forall_impl; [exact HF|]. intros e He. apply He.
    + intros _. rewrite Hc1. simpl. apply fold_held_neutral.
      eapply Forall_impl; [exact HF|]. intros e He. apply He.
Qed.

Lemma new_calls_app s s1 s2 :
  (exists t1, trace s1 = trace s ++ t1) ->
  (exists t2, trace s2 = trace s1 ++ t2) ->
  new_calls s s2 = new_calls s s1 ++ new_calls s1 s2.
Proof.
  intros [t1 H1] [t2 H2].
  rewrite (new_calls_tail _ _ _ H1), (new_calls_tail _ _ _ H2).
  apply new_calls_tail. rewrite H2, H1, app_assoc. reflexivity.
Qed.

Lemma method_control {A} env request file callback (body : M St A) s :
  stable (extends control_neutral) body ->
  stable keep body ->
  let s' :=
    snd (match _prepare_fetch env request file callback (new_response s) with
         | (Ok _, s1) => body s1
         | (Raise e, s1) => (Raise e, s1)
         end) in
  Forall (fun e => ~ control_release e) (new_calls s s') /\
  (_connection (self s) = None ->
   held Control (trace s')
   = match _connection (self s') with
     | Some c => c :: held Control (trace s)
     | None => held Control (trace s)
     end).
Proof.
  intros Hext Hkeep.
  destruct (prepare_fetch_control env request file callback (new_response s))
    as [Hrel Hheld].
  destruct (prepare_fetch_prepared env request file callback (new_response s))
    as (t1 & Ht1 & _).
  destruct (_prepare_fetch env request file callback (new_response s))
    as [[u|e] s1]; simpl in *; [|split; assumption].
  pose proof (Hext s1) as Hx. pose proof (Hkeep s1) as (_ & Hc & _ & _).
  destruct (extends_control_neutral _ _ Hx) as [Hrel2 Hheld2].
  destruct Hx as (t2 & Ht2 & _).
  split.
  - change (new_calls s (snd (body s1)))
      with (new_calls (new_response s) (snd (body s1))).
    rewrite (new_calls_app (new_response s) s1 (snd (body s1))) by eauto.
    apply Forall_app. split; assumption.
  - intros Hconn. rewrite Hheld2, Hc. apply Hheld, Hconn.
Qed.

(** X9: [fetch] and [fetch_file_listing] never close the control
    connection nor check it in, whatever their outcome: a control
    connection that the session was handed during the call is still
    checked out when the call ends. *)
Theorem fetch_keeps_control_connection env request file callback s out :
  out = fetch env request file callback s \/
  out = fetch_file_listing env request file callback s ->
  Forall (fun e => ~ control_release e) (new_calls s (snd out)) /\
  (_connection (self s) = None ->
   held Control (trace (snd out))
   = match _connection (self (snd out)) with
     | Some c => c :: held Control (trace s)
     | None => held Control (trace s)
     end).
Proof.
  intros [->| ->].
  - rewrite fetch_unfold.
    apply (method_control env request file callback (fetch_body env request) s).
    + apply fetch_body_extends, transfer_control_neutral.
    + apply fetch_body_keep.
  - rewrite fetch_file_listing_unfold.
    apply (method_control env request file callback (listing_body env request) s).
    + apply listing_body_extends, transfer_control_neutral.
    + apply listing_body_keep.
Qed.

(** X10: provided the release of connections goes normally, a [clean()]
    that returns, called after [fetch] or [fetch_file_listing] on a session
    that held no connection, leaves the pool with the control and the data
    connections checked out that it had before the call, whatever the
    outcome of the fetch was. *)
Theorem clean_after_fetch_returns_connections env request file callback s out :
  releases_normally env ->
  _connection (self s) = None ->
  out = fetch env request file callback s \/
  out = fetch_file_listing env request file callback s ->
  fst (clean env (snd out)) = Ok tt ->
  held Control (trace (snd (clean env (snd out)))) = held Control (trace s) /\
  held Data (trace (snd (clean env (snd out)))) = held Data (trace s).
Proof.
  intros Hrel Hconn Hout.
  assert (Hdata : held Data (trace (snd out)) = held Data (trace s)).
  { destruct Hout as [->| ->];
      [apply fetch_held|apply fetch_file_listing_held]; exact Hrel. }
  assert (Hcontrol :
            held Control (trace (snd out))
            = match _connection (self (snd out)) with
              | Some c => c :: held Control (trace s)
              | None => held Control (trace s)
              end).
  { destruct Hout as [->| ->].
    - rewrite fetch_unfold.
      apply (method_control env request file callback (fetch_body env request) s);
        [apply fetch_body_extends, transfer_control_neutral
        |apply fetch_body_keep|exact Hconn].
    - rewrite fetch_file_listing_unfold.
      apply (method_control env request file callback (listing_body env request) s);
        [apply listing_body_extends, transfer_control_neutral
        |apply listing_body_keep|exact Hconn]. }
  rewrite clean_run.
  destruct (_connection (self (snd out))) as [c|]; simpl.
  - intros Hin. rewrite Hin, !held_app, Hcontrol, Hdata. simpl.
    destruct (decide (c = c)); [split; reflexivity|congruence].
  - intros _. split; assumption.
Qed.

(** ** Errors of the release, and the callback *)

Ltac tail_of_run :=
  unfold new_calls; simpl;
  rewrite <- ?app_assoc; simpl;
  rewrite ?drop_app_length, ?skipn_all; simpl.

Ltac in_tail H :=
  simpl in H;
  repeat match type of H with
         | _ \/ _ => destruct H as [H|H]
         | False => destruct H
         end;
  try discriminate H.

(** What the [finally] block of [_fetch_with_command] does to the outcome. *)
Lemma fetch_with_command_release env command s :
  let out := _fetch_with_command env command s in
  (forall c e,
     In (EvCheckIn Data c (Raise e)) (new_calls s (snd out)) ->
     fst out = Raise e) /\
  (forall c e,
     (forall tr, connection_close env tr c = Raise e) ->
     In (EvClose Data c) (new_calls s (snd out)) ->
     fst out = Raise e /\
     (forall c' answer, ~ In (EvCheckIn Data c' answer) (new_calls s (snd out))) /\
     held Data (trace (snd out)) = c :: held Data (trace s)).
Proof.
  destruct s as [[conn cs cmd rq rec] reqs resp tr].
  unfold _fetch_with_command, with_locals, try_finally, setup_data_stream,
    connection_factory, read_stream, lift_when_recorder, body_op,
    check_out, check_in, close_connection, commander_call, external_call,
    run_data_handler, recorder_call, record,
    gets_local, modify_local, lift, bind, gets, modify, of_res, ret, raise.
  simpl.
  run_all env.
  all: split; [intros cx ex Hin|intros cx ex Hclose Hin].
  all: revert Hin; tail_of_run; intros Hin; in_tail Hin.
  all: try (simplify_eq; reflexivity).
  all: simplify_eq.
  all: repeat match goal with
              | H : connection_close _ _ _ = _ |- _ =>
                  rewrite Hclose in H; simplify_eq
              end.
  all: try (split; [reflexivity|];
            split; [intros c' answer; not_in_list
                   |rewrite held_app; simpl; reflexivity]).
Qed.

(** X11: when the check-in of the data connection raises,
    [_fetch_with_command] raises that error, whatever the transfer had
    come to: the error of the [finally] block replaces a reply as well as
    an earlier error. *)
Theorem check_in_error_replaces_outcome env command s c e :
  In (EvCheckIn Data c (Raise e))
     (new_calls s (snd (_fetch_with_command env command s))) ->
  fst (_fetch_with_command env command s) = Raise e.
Proof. apply (fetch_with_command_release env command s). Qed.

(** X12: when closing the data connection raises, [_fetch_with_command]
    raises that error and the connection is not checked in: the pool still
    counts it as handed out. *)
Theorem close_error_leaks_data_connection env command s c e :
  (forall tr, connection_close env tr c = Raise e) ->
  In (EvClose Data c) (new_calls s (snd (_fetch_with_command env command s))) ->
  fst (_fetch_with_command env command s) = Raise e /\
  (forall c' answer,
     ~ In (EvCheckIn Data c' answer)
          (new_calls s (snd (_fetch_with_command env command s)))) /\
  held Data (trace (snd (_fetch_with_command env command s)))
  = c :: held Data (trace s).
Proof. apply (fetch_with_command_release env command s). Qed.

Lemma prepare_fetch_callback env request file (cb : Callback) s r c :
  _connection (self s) = None ->
  requests s !! request = Some r ->
  pool_check_out env (trace s)
    (hostname (Request.url_info r)) (port (Request.url_info r)) = Ok c ->
  _prepare_fetch env request file (Some cb) s
  = _prepare_fetch env request
      (cb (Request.set_address (Connection.address c) r)
          (Response.set_request request (response s)))
      None s.
Proof.
  destruct s as [[conn cs cmd rq rec] reqs resp tr]. simpl.
  intros -> Hreq Hco.
  unfold _prepare_fetch, _init_stream, _log_in, when_recorder, get_request,
    check_out, commander_call, recorder_call, record, assert_, truthy, negb,
    bind, gets, modify, of_res, ret, raise.
  simpl. rewrite Hreq. simpl. rewrite Hco. simpl.
  run_prepare env.
  all: reflexivity.
Qed.

(** X13: a callback decides the file: [fetch] and [fetch_file_listing]
    with a callback behave as with no callback and the file that the
    callback returns for the request, with its address assigned, and the
    new response, with its request assigned; the [file] argument is
    ignored. *)
Theorem callback_chooses_the_file env request file (cb : Callback) s r c :
  _connection (self s) = None ->
  requests s !! request = Some r ->
  pool_check_out env (trace s)
    (hostname (Request.url_info r)) (port (Request.url_info r)) = Ok c ->
  let chosen :=
    cb (Request.set_address (Connection.address c) r)
       (Response.set_request request Response.new) in
  fetch env request file (Some cb) s = fetch env request chosen None s /\
  fetch_file_listing env request file (Some cb) s
  = fetch_file_listing env request chosen None s.
Proof.
  intros Hconn Hreq Hco chosen.
  pose proof (prepare_fetch_callback env request file cb (new_response s) r c
                Hconn Hreq Hco) as H.
  rewrite (fetch_unfold env request file (Some cb) s),
    (fetch_file_listing_unfold env request file (Some cb) s).
  rewrite H.
  split; reflexivity.
Qed.

(** ** Listings *)

Lemma get_machine_listing_unfold env request s r :
  requests s !! request = Some r ->
  _get_machine_listing env request s =
  match _fetch_with_command env (mlsd_command r) s with
  | (Ok reply, s') => machine_finish env reply s'
  | (Raise e, s') => (Raise e, s')
  end.
Proof.
  intros H. unfold _get_machine_listing, get_request, bind, gets. simpl.
  rewrite H. reflexivity.
Qed.

Lemma machine_finish_run env reply s b :
  Response.body (response s) = Some b ->
  machine_finish env reply s
  = (Ok reply,
     set_response
       (fun resp =>
          Response.set_files (parse_machine_listing env (Body.content b))
            (Response.set_body (read_through b) resp)) s).
Proof.
  intros H. unfold machine_finish, body_op, body_read, bind, gets, modify, ret.
  simpl. rewrite H. simpl. reflexivity.
Qed.

Lemma list_finish_run env reply s b :
  Response.body (response s) = Some b ->
  list_finish env reply s
  = match parse_list_listing env (Body.content b) with
    | Ok listings =>
        (Ok reply,
         set_response
           (fun resp =>
              Response.set_files listings
                (Response.set_body (read_through b) resp)) s)
    | Raise e =>
        (Raise e, set_response (Response.set_body (read_through b)) s)
    end.
Proof.
  intros H. unfold list_finish, body_op, body_read, bind, gets, modify, of_res, ret.
  simpl. rewrite H. simpl.
  destruct (parse_list_listing env _); reflexivity.
Qed.

Lemma streamed_request data resp :
  Response.request (streamed data resp) = Response.request resp.
Proof.
  unfold streamed. destruct data; [reflexivity|].
  destruct (Response.body resp); reflexivity.
Qed.

Lemma streamed_body data resp :
  is_Some (Response.body resp) -> is_Some (Response.body (streamed data resp)).
Proof.
  intros [b H]. unfold streamed. rewrite H. destruct data; simpl; eauto.
Qed.

Lemma transfer_response env command s res tail resp :
  transfer env command s res tail resp ->
  Response.request resp = Response.request (response s) /\
  (is_Some (Response.body (response s)) -> is_Some (Response.body resp)).
Proof.
  intros H.
  destruct H as [ | | | | host port c e rel resp _ [->| ->] | ];
    try (split; [reflexivity|tauto]);
    (split; [apply streamed_request|apply streamed_body]).
Qed.

Lemma fetch_file_listing_success env request file callback s resp s' :
  fetch_file_listing env request file callback s = (Ok resp, s') ->
  exists b reply,
    response s' = resp /\
    Response.request resp = Some request /\
    Response.reply resp = Some reply /\
    Response.body resp = Some (Body.seek 0 b) /\
    (Response.files resp = Some (parse_machine_listing env (Body.content b)) \/
     exists listings,
       parse_list_listing env (Body.content b) = Ok listings /\
       Response.files resp = Some listings).
Proof.
  rewrite fetch_file_listing_unfold.
  destruct (_prepare_fetch env request file callback (new_response s))
    as [[[]|e] s1] eqn:Hp; [|discriminate].
  destruct (prepare_fetch_success _ _ _ _ _ _ Hp)
    as (r & c & _ & Hreq & _ & _ & _ & Hr1 & Hresp & Hready).
  simpl in Hreq, Hr1, Hresp.
  assert (Hreq1 : requests s1 !! request
                  = Some (Request.set_address (Connection.address c) r))
    by (rewrite Hr1, lookup_alter_eq, Hreq; reflexivity).
  assert (Hrq1 : Response.request (response s1) = Some request)
    by (rewrite Hresp; reflexivity).
  assert (Hb1 : is_Some (Response.body (response s1)))
    by (rewrite Hresp; eexists; reflexivity).
  unfold listing_body. unfold bind at 1. unfold try_except.
  rewrite (get_machine_listing_unfold env request s1 _ Hreq1).
  destruct (fetch_with_command_transfer env
              (mlsd_command (Request.set_address (Connection.address c) r)) s1)
    as (tail & Ht & Htrans).
  pose proof (fetch_with_command_keep env
                (mlsd_command (Request.set_address (Connection.address c) r)) s1)
    as (Hk & _ & _ & _).
  destruct (transfer_response _ _ _ _ _ _ Htrans) as [Hrq2 Hb2].
  specialize (Hb2 Hb1). destruct Hb2 as [b2 Hb2].
  destruct (_fetch_with_command env
              (mlsd_command (Request.set_address (Connection.address c) r)) s1)
    as [[reply|e] s2]; simpl in *.
  - rewrite (machine_finish_run env reply s2 b2 Hb2).
    match goal with
    | |- context [(_clean_up_fetch reply;; gets response) ?st] =>
        destruct (clean_up_run reply st (read_through b2)) as (rec & ->);
          [simpl; reflexivity|]
    end.
    intros [= <- <-]. exists b2, reply. simpl.
    repeat split; try reflexivity.
    + rewrite Hrq2. exact Hrq1.
    + left. reflexivity.
  - destruct (is_FTPServerError e); [|discriminate].
    rewrite (listing_handler_run env request e s2 b2 Hb2).
    destruct (fallback_eligible env e); [|discriminate].
    assert (Hreq2 : requests (reset_sink s2) !! request
                    = Some (Request.set_address (Connection.address c) r))
      by (simpl; rewrite Hk; exact Hreq1).
    rewrite (get_list_listing_unfold env request _ _ Hreq2).
    destruct (fetch_with_command_transfer env
                (list_command (Request.set_address (Connection.address c) r))
                (reset_sink s2))
      as (tail' & Ht' & Htrans').
    destruct (transfer_response _ _ _ _ _ _ Htrans') as [Hrq3 Hb3].
    destruct Hb3 as [b3 Hb3]; [simpl; eexists; reflexivity|].
    destruct (_fetch_with_command env
                (list_command (Request.set_address (Connection.address c) r))
                (reset_sink s2))
      as [[reply|e'] s3]; simpl in *; [|discriminate].
    rewrite (list_finish_run env reply s3 b3 Hb3).
    destruct (parse_list_listing env (Body.content b3)) as [listings|e'] eqn:Hparse;
      [|discriminate].
    match goal with
    | |- context [(_clean_up_fetch reply;; gets response) ?st] =>
        destruct (clean_up_run reply st (read_through b3)) as (rec & ->);
          [simpl; reflexivity|]
    end.
    intros [= <- <-]. exists b3, reply. simpl.
    repeat split; try reflexivity.
    + rewrite Hrq3. simpl. rewrite Hrq2. exact Hrq1.
    + right. exists listings. split; [exact Hparse|reflexivity].
Qed.

(** X14: the response a [fetch_file_listing] returns has the request given
    and a reply, its body is sought to its start, and its file listing is
    the decoding of the whole content of that body, by the machine-listing
    parser or, after the fallback, by the [LIST] parser. *)
Theorem listing_files_decode_the_body env request file callback s resp s' :
  fetch_file_listing env request file callback s = (Ok resp, s') ->
  exists content reply,
    response s' = resp /\
    Response.request resp = Some request /\
    Response.reply resp = Some reply /\
    Response.body resp
    = Some {| Body.content := content; Body.position := 0 |} /\
    (Response.files resp = Some (parse_machine_listing env content) \/
     exists listings,
       parse_list_listing env content = Ok listings /\
       Response.files resp = Some listings).
Proof.
  intros H.
  destruct (fetch_file_listing_success env request file callback s resp s' H)
    as (b & reply & H1 & H2 & H3 & H4 & H5).
  exists (Body.content b), reply. repeat split; assumption.
Qed.

(** X15: an error of the machine-listing attempt that is not a server
    reply error leaves [fetch_file_listing] as it is: the body is neither
    sought nor truncated, [LIST] is not attempted, and the state is the one
    the attempt left. *)
Theorem other_errors_skip_the_fallback env request file callback s s1 s2 e :
  _prepare_fetch env request file callback (new_response s) = (Ok tt, s1) ->
  _get_machine_listing env request s1 = (Raise e, s2) ->
  is_FTPServerError e = false ->
  fetch_file_listing env request file callback s = (Raise e, s2).
Proof.
  intros Hp Hm He. rewrite fetch_file_listing_unfold, Hp.
  unfold listing_body. unfold bind at 1. unfold try_except.
  rewrite Hm, He. reflexivity.
Qed.

Lemma attempts_app t1 t2 : attempts (t1 ++ t2) = (attempts t1 + attempts t2)%nat.
Proof. unfold attempts. rewrite List.filter_app, length_app. reflexivity. Qed.

Lemma bounded_same_trace {A} (m : M St A) : stable same_trace m -> bounded 0 m.
Proof.
  intros H s. exists []. rewrite app_nil_r. split; [apply H|reflexivity].
Qed.

Lemma bounded_weaken {A} n p (m : M St A) :
  (n <= p)%nat -> bounded n m -> bounded p m.
Proof.
  intros Hle H s. destruct (H s) as (tail & Ht & L). exists tail.
  split; [exact Ht|lia].
Qed.

Lemma bounded_bind {A B} n p (m : M St A) (k : A -> M St B) :
  bounded n m -> (forall a, bounded p (k a)) -> bounded (n + p) (bind m k).
Proof.
  intros Hm Hk s. destruct (Hm s) as (t1 & H1 & L1). unfold bind.
  destruct (m s) as [[a|e] s1]; simpl in *.
  - destruct (Hk a s1) as (t2 & H2 & L2). exists (t1 ++ t2). split.
    + rewrite H2, H1, app_assoc. reflexivity.
    + rewrite attempts_app. lia.
  - exists t1. split; [exact H1|lia].
Qed.

Lemma bounded_try_except {A} n p (body : M St A) catches (handler : exn -> M St A) :
  bounded n body -> (forall e, bounded p (handler e)) ->
  bounded (n + p) (try_except body catches handler).
Proof.
  intros Hb Hh s. destruct (Hb s) as (t1 & H1 & L1). unfold try_except.
  destruct (body s) as [[a|e] s1]; simpl in *.
  - exists t1. split; [exact H1|lia].
  - destruct (catches e).
    + destruct (Hh e s1) as (t2 & H2 & L2). exists (t1 ++ t2). split.
      * rewrite H2, H1, app_assoc. reflexivity.
      * rewrite attempts_app. lia.
    + exists t1. split; [exact H1|lia].
Qed.

Lemma fetch_with_command_bounded env command :
  bounded 1 (_fetch_with_command env command).
Proof.
  intros s. destruct (fetch_with_command_transfer env command s) as (tail & Ht & Hs).
  exists tail. split; [exact Ht|]. eapply transfer_attempts, Hs.
Qed.

Lemma prepare_fetch_bounded env request file callback :
  bounded 0 (_prepare_fetch env request file callback).
Proof.
  intros s.
  destruct (prepare_fetch_prepared env request file callback s) as (tail & Ht & Hp).
  exists tail. split; [exact Ht|].
  revert Hp. generalize (fst (_prepare_fetch env request file callback s)).
  generalize (snd (_prepare_fetch env request file callback s)).
  intros s' res Hp.
  destruct Hp as [e | r e _ _ _ | r c res rest s' _ _ _ [k Hrest] _ _ _ _ _].
  - reflexivity.
  - reflexivity.
  - destruct rest as [|e1 [|e2 [|e3 rest]]]; simplify_eq/=; reflexivity.
Qed.

Lemma get_request_same_trace request : stable same_trace (get_request request).
Proof. stable_auto same_trace_leaf. Qed.

Lemma body_op_same_trace f : stable same_trace (body_op f).
Proof. stable_auto same_trace_leaf. Qed.

Lemma get_machine_listing_bounded env request :
  bounded 1 (_get_machine_listing env request).
Proof.
  unfold _get_machine_listing.
  apply (bounded_bind 0 1); [apply bounded_same_trace, get_request_same_trace|].
  intros r. apply (bounded_bind 1 0); [apply fetch_with_command_bounded|].
  intros reply. apply bounded_same_trace. stable_auto same_trace_leaf.
Qed.

Lemma get_list_listing_bounded env request :
  bounded 1 (_get_list_listing env request).
Proof.
  unfold _get_list_listing.
  apply (bounded_bind 0 1); [apply bounded_same_trace, get_request_same_trace|].
  intros r. apply (bounded_bind 1 0); [apply fetch_with_command_bounded|].
  intros reply. apply bounded_same_trace. stable_auto same_trace_leaf.
Qed.

Lemma fetch_bounded env request file callback :
  bounded 1 (fetch env request file callback).
Proof.
  unfold fetch.
  apply (bounded_bind 0 1); [apply bounded_same_trace; stable_auto same_trace_leaf|].
  intros _. apply (bounded_bind 0 1); [apply prepare_fetch_bounded|].
  intros _. apply (bounded_bind 0 1); [apply bounded_same_trace, get_request_same_trace|].
  intros r. apply (bounded_bind 1 0); [apply fetch_with_command_bounded|].
  intros reply. apply bounded_same_trace, clean_up_then_response_same_trace.
Qed.

Lemma fetch_file_listing_bounded env request file callback :
  bounded 2 (fetch_file_listing env request file callback).
Proof.
  unfold fetch_file_listing.
  apply (bounded_bind 0 2); [apply bounded_same_trace; stable_auto same_trace_leaf|].
  intros _. apply (bounded_bind 0 2); [apply prepare_fetch_bounded|].
  intros _. apply (bounded_bind 2 0).
  - apply (bounded_try_except 1 1); [apply get_machine_listing_bounded|].
    intros e. apply (bounded_bind 0 1); [apply bounded_same_trace, body_op_same_trace|].
    intros _. apply (bounded_bind 0 1); [apply bounded_same_trace, body_op_same_trace|].
    intros _. destruct (fallback_eligible env e).
    + apply get_list_listing_bounded.
    + apply (bounded_weaken 0 1); [lia|].
      apply (bounded_same_trace (raise e)). stable_auto same_trace_leaf.
  - intros reply. apply bounded_same_trace, clean_up_then_response_same_trace.
Qed.

(** X16: whatever the outcome, [fetch] starts at most one data transfer
    and [fetch_file_listing] at most two. *)
Theorem transfers_are_not_retried env request file callback s :
  (attempts (new_calls s (snd (fetch env request file callback s))) <= 1)%nat /\
  (attempts (new_calls s (snd (fetch_file_listing env request file callback s)))
   <= 2)%nat.
Proof.
  split.
  - destruct (fetch_bounded env request file callback s) as (tail & Ht & L).
    rewrite (new_calls_tail _ _ _ Ht). exact L.
  - destruct (fetch_file_listing_bounded env request file callback s)
      as (tail & Ht & L).
    rewrite (new_calls_tail _ _ _ Ht). exact L.
Qed.

(** ** What the recorder is told *)

#[global] Instance records_preorder Q : PreOrder (records Q).
Proof.
  split.
  - intros s calls H. exists []. rewrite app_nil_r. split; [exact H|constructor].
  - intros a b c H1 H2 calls Ha.
    destruct (H1 calls Ha) as (m1 & Hb & F1).
    destruct (H2 _ Hb) as (m2 & Hc & F2).
    exists (m1 ++ m2). rewrite app_assoc. split; [exact Hc|].
    apply Forall_app. split; assumption.
Qed.

Lemma stable_recorder_call_records (Q : rec_event -> Prop) e :
  Q e -> stable (records Q) (recorder_call e).
Proof.
  intros He s calls H. unfold recorder_call. rewrite H. simpl.
  exists [e]. split; [reflexivity|repeat constructor; exact He].
Qed.

Ltac records_leaf :=
  let calls := fresh in let H := fresh in
  intros calls H; exists []; rewrite app_nil_r; split; [exact H|constructor].

Ltac records_step :=
  lazymatch goal with
  | |- stable (records _) (recorder_call _) =>
      apply stable_recorder_call_records; reflexivity
  | |- _ => stable_step records_leaf
  end.

Ltac records_auto := repeat records_step.

Lemma fetch_with_command_records env command :
  stable (records (fun e => closing e = false)) (_fetch_with_command env command).
Proof. records_auto. Qed.

Lemma prepare_fetch_records env request file callback :
  stable (records (fun e => closing e = false))
    (_prepare_fetch env request file callback).
Proof. records_auto. Qed.

#[global] Hint Resolve fetch_with_command_records prepare_fetch_records : stable_db.

Lemma get_machine_listing_records env request :
  stable (records (fun e => closing e = false)) (_get_machine_listing env request).
Proof. records_auto. Qed.

Lemma listing_attempts_records env request :
  stable (records (fun e => closing e = false))
    (try_except (_get_machine_listing env request) is_FTPServerError
       (listing_handler env request)).
Proof. records_auto. Qed.

Lemma clean_up_records reply s calls :
  _recorder_session (self s) = Some calls ->
  match (_clean_up_fetch reply;; gets response) s with
  | (Ok resp, s') =>
      _recorder_session (self s')
      = Some (calls ++ [RecResponse resp; RecEndControl resp])
  | (Raise _, s') => _recorder_session (self s') = Some calls
  end.
Proof.
  intros H.
  unfold _clean_up_fetch, when_recorder, recorder_call, body_op, bind, gets,
    modify, ret, raise.
  simpl. destruct (Response.body (response s)); simpl; repeat (rewrite H; simpl).
  - rewrite <- app_assoc. reflexivity.
  - reflexivity.
Qed.

(** The outcome of a method whose last step is [_clean_up_fetch]. *)
Lemma closing_calls (attempt : M St Reply) (s : St) calls :
  stable (records (fun e => closing e = false)) attempt ->
  _recorder_session (self s) = Some calls ->
  let out := (reply <- attempt;; _clean_up_fetch reply;; gets response) s in
  exists more,
    _recorder_session (self (snd out)) = Some (calls ++ more) /\
    match fst out with
    | Ok resp =>
        exists before,
          more = before ++ [RecResponse resp; RecEndControl resp] /\
          Forall (fun e => closing e = false) before
    | Raise _ => Forall (fun e => closing e = false) more
    end.
Proof.
  intros Hatt Hrec. cbv zeta. rewrite (bind_run attempt _ s).
  destruct (Hatt s calls Hrec) as (m1 & H1 & F1).
  destruct (attempt s) as [[reply|e] s1]; simpl in *.
  - pose proof (clean_up_records reply s1 _ H1) as Hc.
    destruct ((_clean_up_fetch reply;; gets response) s1) as [[resp|e] s2]; simpl.
    + exists (m1 ++ [RecResponse resp; RecEndControl resp]).
      rewrite app_assoc. split; [exact Hc|]. simpl. exists m1.
      split; [reflexivity|exact F1].
    + exists m1. split; [exact Hc|exact F1].
  - exists m1. split; [exact H1|exact F1].
Qed.

(** X17: a recorder only gains calls, and it is told [response] and
    [end_control] exactly when [fetch] or [fetch_file_listing] returns:
    they are then its last two calls, in this order, both with the response
    returned; when the method raises, neither has been called. *)
Theorem recorder_is_closed_on_return env request file callback s calls out :
  _recorder_session (self s) = Some calls ->
  out = fetch env request file callback s \/
  out = fetch_file_listing env request file callback s ->
  exists more,
    _recorder_session (self (snd out)) = Some (calls ++ more) /\
    match fst out with
    | Ok resp =>
        exists before,
          more = before ++ [RecResponse resp; RecEndControl resp] /\
          Forall (fun e => closing e = false) before
    | Raise _ => Forall (fun e => closing e = false) more
    end.
Proof.
  intros Hrec [->| ->].
  - assert (Hsplit :
      fetch env request file callback s
      = (reply <- (modify (set_response (fun _ => Response.new));;
                   _prepare_fetch env request file callback;;
                   r <- get_request request;;
                   _fetch_with_command env
                     {| name := "RETR"; argument := path (Request.url_info r) |});;
         _clean_up_fetch reply;; gets response) s).
    { unfold fetch, bind, modify. simpl.
      destruct (_prepare_fetch env request file callback _) as [[u|e] s1];
        [|reflexivity].
      destruct (get_request request s1) as [[r|e] s1']; [|reflexivity].
      destruct (_fetch_with_command env _ s1') as [[reply|e] s2]; reflexivity. }
    rewrite Hsplit. apply closing_calls; [|exact Hrec]. records_auto.
  - assert (Hsplit :
      fetch_file_listing env request file callback s
      = (reply <- (modify (set_response (fun _ => Response.new));;
                   _prepare_fetch env request file callback;;
                   try_except (_get_machine_listing env request) is_FTPServerError
                     (listing_handler env request));;
         _clean_up_fetch reply;; gets response) s).
    { unfold fetch_file_listing. fold (listing_handler env request).
      unfold bind, modify. simpl.
      destruct (_prepare_fetch env request file callback _) as [[u|e] s1];
        [|reflexivity].
      destruct (try_except _ _ _ s1) as [[reply|e] s2]; reflexivity. }
    rewrite Hsplit. apply closing_calls; [|exact Hrec].
    pose proof (listing_attempts_records env request). records_auto.
Qed.

(** ** The filter report of the scripting hook *)

Lemma foldl_insert_lookup {F} (key : F -> string) (v : bool) (l : list F)
    (d : gmap string bool) (k : string) :
  foldl (fun d f => <[key f := v]> d) d l !! k
  = if decide (k ∈ key <$> l) then Some v else d !! k.
Proof.
  revert d. induction l as [|f l IH]; intros d; simpl.
  - destruct (decide (k ∈ [])) as [H|_]; [|reflexivity].
    apply elem_of_nil in H. destruct H.
  - rewrite IH.
    destruct (decide (k ∈ key <$> l)) as [Hin|Hnot].
    + rewrite decide_True; [reflexivity|]. apply elem_of_cons. right. exact Hin.
    + destruct (decide (k = key f)) as [->|Hne].
      * rewrite lookup_insert_eq. rewrite decide_True; [reflexivity|].
        apply elem_of_cons. left. reflexivity.
      * rewrite lookup_insert_ne by congruence.
        rewrite decide_False; [reflexivity|].
        intros H. apply elem_of_cons in H. destruct H; contradiction.
Qed.

(** X18: [_get_filter_info] reports [False] for the class name of every
    filter that failed, [True] for the class name of every filter that
    passed and of which none failed, and nothing else: a failed filter
    overrides a passed one of the same class. *)
Theorem failed_filter_overrides_passed {Filter} (class_name : Filter -> string)
    (passed failed : list Filter) (name : string) :
  _get_filter_info class_name passed failed !! name
  = if decide (name ∈ class_name <$> failed) then Some false
    else if decide (name ∈ class_name <$> passed) then Some true
    else None.
Proof.
  unfold _get_filter_info. rewrite !foldl_insert_lookup.
  rewrite lookup_empty. reflexivity.
Qed.

(** ** The properties on concrete collaborators *)

Lemma faulty_env_answers_normally : answers_normally (faulty_env NoFault).
Proof.
  repeat split; simpl; eauto.
  intros tr c Hin. unfold strict_check_in.
  rewrite bool_decide_eq_true_2; [reflexivity|].
  apply list_elem_of_In, in_or_app. right. exact Hin.
Qed.

Lemma fetch_calls_in_order_witness :
  fetch sample_env 0%nat FileNone None new_state
  = (Ok (response after_fetch), after_fetch) /\
  exists r c address dc,
    requests new_state !! 0%nat = Some r /\
    new_calls new_state after_fetch
    = [EvCheckOut Control (hostname (Request.url_info r))
         (port (Request.url_info r)) (Ok c);
       EvReconnect;
       EvLogin (login_username r) (login_password r);
       EvSetupDataStream;
       EvCheckOut Data (fst address) (snd address) (Ok dc);
       EvDataConnect dc;
       EvReadStream (retr_command r)
         (Some (sink_of (chosen_file 0%nat FileNone None r c Response.new)));
       EvClose Data dc;
       EvCheckIn Data dc (Ok tt)].
Proof.
  assert (H : fetch sample_env 0%nat FileNone None new_state
              = (Ok (response after_fetch), after_fetch))
    by (vm_compute; reflexivity).
  split; [exact H|].
  exact (fetch_calls_in_order sample_env 0%nat FileNone None new_state
           (response after_fetch) after_fetch H).
Defined.

Lemma fetch_response_witness :
  fetch sample_env 0%nat FileNone None new_state
  = (Ok (response after_fetch), after_fetch) /\
  exists r c before after data reply,
    requests new_state !! 0%nat = Some r /\
    pool_check_out sample_env (trace new_state)
      (hostname (Request.url_info r)) (port (Request.url_info r)) = Ok c /\
    let sink := sink_of (chosen_file 0%nat FileNone None r c Response.new) in
    new_calls new_state after_fetch
    = before ++ EvReadStream (retr_command r) (Some sink) :: after /\
    commander_read_stream sample_env (trace new_state ++ before) (retr_command r)
    = (data, Ok reply) /\
    response after_fetch
    = {| Response.request := Some 0%nat;
         Response.body := Some (Body.seek 0 (received data sink));
         Response.reply := Some reply;
         Response.files := None |} /\
    response after_fetch = response after_fetch /\
    (sink = Body.empty ->
     Response.body (response after_fetch)
     = Some {| Body.content := data; Body.position := 0 |}).
Proof.
  assert (H : fetch sample_env 0%nat FileNone None new_state
              = (Ok (response after_fetch), after_fetch))
    by (vm_compute; reflexivity).
  split; [exact H|].
  exact (fetch_response sample_env 0%nat FileNone None new_state
           (response after_fetch) after_fetch H).
Defined.

Lemma fetch_returns_witness :
  answers_normally (faulty_env NoFault) /\
  _connection (self new_state) = None /\
  is_Some (requests new_state !! 0%nat) /\
  (exists resp s',
     fetch (faulty_env NoFault) 0%nat FileNone None new_state = (Ok resp, s')) /\
  (exists resp s',
     fetch_file_listing (faulty_env NoFault) 0%nat FileNone None new_state
     = (Ok resp, s')).
Proof.
  assert (Hreq : is_Some (requests new_state !! 0%nat))
    by (exists sample_request; reflexivity).
  split; [exact faulty_env_answers_normally|].
  split; [reflexivity|]. split; [exact Hreq|].
  exact (fetch_returns (faulty_env NoFault) 0%nat FileNone None new_state
           faulty_env_answers_normally eq_refl Hreq).
Defined.

Lemma failed_check_out_acquires_nothing_witness :
  _connection (self new_state) = None /\
  requests new_state !! 0%nat = Some sample_request /\
  pool_check_out (faulty_env FaultCheckOut) (trace new_state)
    "ftp.example.com" 21 = Raise network_error /\
  fetch (faulty_env FaultCheckOut) 0%nat FileNone None new_state
  = (Raise network_error,
     set_trace
       (fun tr => tr ++ [EvCheckOut Control "ftp.example.com" 21
                           (Raise network_error)])
       (new_response new_state)).
Proof.
  split; [reflexivity|]. split; [reflexivity|]. split; [reflexivity|].
  exact (proj1 (failed_check_out_acquires_nothing (faulty_env FaultCheckOut)
                  0%nat FileNone None new_state sample_request network_error
                  eq_refl eq_refl eq_refl)).
Defined.

Lemma failed_reconnect_skips_login_witness :
  _connection (self new_state) = None /\
  requests new_state !! 0%nat = Some sample_request /\
  pool_check_out (faulty_env FaultReconnect) (trace new_state)
    "ftp.example.com" 21 = Ok sample_control /\
  commander_reconnect (faulty_env FaultReconnect)
    (trace new_state ++ [EvCheckOut Control "ftp.example.com" 21 (Ok sample_control)])
  = Raise network_error /\
  let out := fetch (faulty_env FaultReconnect) 0%nat FileNone None new_state in
  fst out = Raise network_error /\
  new_calls new_state (snd out)
  = [EvCheckOut Control "ftp.example.com" 21 (Ok sample_control); EvReconnect] /\
  _connection (self (snd out)) = Some sample_control.
Proof.
  split; [reflexivity|]. split; [reflexivity|]. split; [reflexivity|].
  split; [reflexivity|].
  exact (failed_reconnect_skips_login (faulty_env FaultReconnect) 0%nat FileNone None
           new_state sample_request sample_control network_error
           eq_refl eq_refl eq_refl eq_refl
           (fetch (faulty_env FaultReconnect) 0%nat FileNone None new_state)
           (or_introl eq_refl)).
Defined.

Lemma failed_login_keeps_control_connection_witness :
  _connection (self new_state) = None /\
  requests new_state !! 0%nat = Some sample_request /\
  pool_check_out (faulty_env FaultLogin) (trace new_state)
    "ftp.example.com" 21 = Ok sample_control /\
  commander_reconnect (faulty_env FaultLogin)
    (trace new_state ++ [EvCheckOut Control "ftp.example.com" 21 (Ok sample_control)])
  = Ok tt /\
  commander_login (faulty_env FaultLogin)
    (trace new_state
     ++ [EvCheckOut Control "ftp.example.com" 21 (Ok sample_control); EvReconnect])
    "anonymous" "-wpull@"
  = Raise login_incorrect /\
  let out := fetch_file_listing (faulty_env FaultLogin) 0%nat FileNone None new_state in
  fst out = Raise login_incorrect /\
  new_calls new_state (snd out)
  = [EvCheckOut Control "ftp.example.com" 21 (Ok sample_control); EvReconnect;
     EvLogin "anonymous" "-wpull@"] /\
  _connection (self (snd out)) = Some sample_control /\
  requests (snd out) !! 0%nat
  = Some (Request.set_address ("ftp.example.com", 21) sample_request).
Proof.
  split; [reflexivity|]. split; [reflexivity|]. split; [reflexivity|].
  split; [reflexivity|]. split; [reflexivity|].
  exact (failed_login_keeps_control_connection (faulty_env FaultLogin) 0%nat
           FileNone None new_state sample_request sample_control login_incorrect
           eq_refl eq_refl eq_refl eq_refl eq_refl
           (fetch_file_listing (faulty_env FaultLogin) 0%nat FileNone None new_state)
           (or_intror eq_refl)).
Defined.

Lemma fetch_keeps_control_connection_witness :
  (fetch sample_env 0%nat FileNone None new_state
   = fetch sample_env 0%nat FileNone None new_state \/
   fetch sample_env 0%nat FileNone None new_state
   = fetch_file_listing sample_env 0%nat FileNone None new_state) /\
  Forall (fun e => ~ control_release e) (new_calls new_state after_fetch) /\
  (_connection (self new_state) = None ->
   held Control (trace after_fetch)
   = match _connection (self after_fetch) with
     | Some c => c :: held Control (trace new_state)
     | None => held Control (trace new_state)
     end).
Proof.
  split; [left; reflexivity|].
  exact (fetch_keeps_control_connection sample_env 0%nat FileNone None new_state
           (fetch sample_env 0%nat FileNone None new_state) (or_introl eq_refl)).
Defined.

Lemma clean_after_fetch_returns_connections_witness :
  releases_normally sample_env /\
  _connection (self new_state) = None /\
  fst (clean sample_env after_fetch) = Ok tt /\
  held Control (trace (snd (clean sample_env after_fetch)))
  = held Control (trace new_state) /\
  held Data (trace (snd (clean sample_env after_fetch)))
  = held Data (trace new_state).
Proof.
  assert (H : fst (clean sample_env after_fetch) = Ok tt)
    by (vm_compute; reflexivity).
  split; [exact (sample_env_releases 502 transfer_complete)|].
  split; [reflexivity|]. split; [exact H|].
  exact (clean_after_fetch_returns_connections sample_env 0%nat FileNone None
           new_state (fetch sample_env 0%nat FileNone None new_state)
           (sample_env_releases 502 transfer_complete) eq_refl
           (or_introl eq_refl) H).
Defined.

Lemma check_in_error_replaces_outcome_witness :
  In (EvCheckIn Data sample_data (Raise network_error))
     (new_calls (sample_prepared (faulty_env FaultCheckIn))
        (snd (_fetch_with_command (faulty_env FaultCheckIn)
                (retr_command sample_request)
                (sample_prepared (faulty_env FaultCheckIn))))) /\
  fst (_fetch_with_command (faulty_env FaultCheckIn)
         (retr_command sample_request)
         (sample_prepared (faulty_env FaultCheckIn)))
  = Raise network_error.
Proof.
  assert (H : In (EvCheckIn Data sample_data (Raise network_error))
                (new_calls (sample_prepared (faulty_env FaultCheckIn))
                   (snd (_fetch_with_command (faulty_env FaultCheckIn)
                           (retr_command sample_request)
                           (sample_prepared (faulty_env FaultCheckIn))))))
    by (vm_compute; do 5 right; left; reflexivity).
  split; [exact H|].
  exact (check_in_error_replaces_outcome (faulty_env FaultCheckIn)
           (retr_command sample_request) (sample_prepared (faulty_env FaultCheckIn))
           sample_data network_error H).
Defined.

Lemma close_error_leaks_data_connection_witness :
  (forall tr,
     connection_close (faulty_env FaultClose) tr sample_data = Raise network_error) /\
  In (EvClose Data sample_data)
     (new_calls (sample_prepared (faulty_env FaultClose))
        (snd (_fetch_with_command (faulty_env FaultClose)
                (retr_command sample_request)
                (sample_prepared (faulty_env FaultClose))))) /\
  fst (_fetch_with_command (faulty_env FaultClose)
         (retr_command sample_request)
         (sample_prepared (faulty_env FaultClose)))
  = Raise network_error /\
  held Data
    (trace (snd (_fetch_with_command (faulty_env FaultClose)
                   (retr_command sample_request)
                   (sample_prepared (faulty_env FaultClose)))))
  = sample_data :: held Data (trace (sample_prepared (faulty_env FaultClose))).
Proof.
  assert (H : In (EvClose Data sample_data)
                (new_calls (sample_prepared (faulty_env FaultClose))
                   (snd (_fetch_with_command (faulty_env FaultClose)
                           (retr_command sample_request)
                           (sample_prepared (faulty_env FaultClose))))))
    by (vm_compute; do 4 right; left; reflexivity).
  split; [intros tr; reflexivity|]. split; [exact H|].
  pose proof (close_error_leaks_data_connection (faulty_env FaultClose)
                (retr_command sample_request) (sample_prepared (faulty_env FaultClose))
                sample_data network_error (fun tr => eq_refl) H) as (H1 & _ & H3).
  split; [exact H1|exact H3].
Defined.

Lemma callback_chooses_the_file_witness :
  _connection (self new_state) = None /\
  requests new_state !! 0%nat = Some sample_request /\
  pool_check_out sample_env (trace new_state) "ftp.example.com" 21
  = Ok sample_control /\
  fetch sample_env 0%nat FileNone (Some sample_callback) new_state
  = fetch sample_env 0%nat
      (FileBody {| Body.content := [Byte.x2d]; Body.position := 1 |}) None new_state.
Proof.
  split; [reflexivity|]. split; [reflexivity|]. split; [reflexivity|].
  exact (proj1 (callback_chooses_the_file sample_env 0%nat FileNone sample_callback
                  new_state sample_request sample_control eq_refl eq_refl eq_refl)).
Defined.

Lemma listing_files_decode_the_body_witness :
  fetch_file_listing sample_env 0%nat FileNone None new_state
  = (Ok (response after_listing), after_listing) /\
  exists content reply,
    response after_listing = response after_listing /\
    Response.request (response after_listing) = Some 0%nat /\
    Response.reply (response after_listing) = Some reply /\
    Response.body (response after_listing)
    = Some {| Body.content := content; Body.position := 0 |} /\
    (Response.files (response after_listing)
     = Some (parse_machine_listing sample_env content) \/
     exists listings,
       parse_list_listing sample_env content = Ok listings /\
       Response.files (response after_listing) = Some listings).
Proof.
  assert (H : fetch_file_listing sample_env 0%nat FileNone None new_state
              = (Ok (response after_listing), after_listing))
    by (vm_compute; reflexivity).
  split; [exact H|].
  exact (listing_files_decode_the_body sample_env 0%nat FileNone None new_state
           (response after_listing) after_listing H).
Defined.

Lemma other_errors_skip_the_fallback_witness :
  _prepare_fetch (faulty_env FaultNegotiate) 0%nat FileNone None
    (new_response new_state)
  = (Ok tt, sample_prepared (faulty_env FaultNegotiate)) /\
  _get_machine_listing (faulty_env FaultNegotiate) 0%nat
    (sample_prepared (faulty_env FaultNegotiate))
  = (Raise network_error, sample_failed (faulty_env FaultNegotiate)) /\
  is_FTPServerError network_error = false /\
  fetch_file_listing (faulty_env FaultNegotiate) 0%nat FileNone None new_state
  = (Raise network_error, sample_failed (faulty_env FaultNegotiate)).
Proof.
  assert (H1 : _prepare_fetch (faulty_env FaultNegotiate) 0%nat FileNone None
                 (new_response new_state)
               = (Ok tt, sample_prepared (faulty_env FaultNegotiate)))
    by (vm_compute; reflexivity).
  assert (H2 : _get_machine_listing (faulty_env FaultNegotiate) 0%nat
                 (sample_prepared (faulty_env FaultNegotiate))
               = (Raise network_error, sample_failed (faulty_env FaultNegotiate)))
    by (vm_compute; reflexivity).
  split; [exact H1|]. split; [exact H2|]. split; [reflexivity|].
  exact (other_errors_skip_the_fallback (faulty_env FaultNegotiate) 0%nat
           FileNone None new_state _ _ network_error H1 H2 eq_refl).
Defined.

Lemma recorder_is_closed_on_return_witness :
  _recorder_session (self (initial_state (Some []) sample_requests)) = Some [] /\
  exists more,
    _recorder_session
      (self (snd (fetch sample_env 0%nat FileNone None
                    (initial_state (Some []) sample_requests))))
    = Some ([] ++ more) /\
    match fst (fetch sample_env 0%nat FileNone None
                 (initial_state (Some []) sample_requests)) with
    | Ok resp =>
        exists before,
          more = before ++ [RecResponse resp; RecEndControl resp] /\
          Forall (fun e => closing e = false) before
    | Raise _ => Forall (fun e => closing e = false) more
    end.
Proof.
  split; [reflexivity|].
  exact (recorder_is_closed_on_return sample_env 0%nat FileNone None
           (initial_state (Some []) sample_requests) []
           (fetch sample_env 0%nat FileNone None
              (initial_state (Some []) sample_requests))
           eq_refl (or_introl eq_refl)).
Defined.

Lemma sample_prepared_ready env :
  fst (_prepare_fetch env 0%nat FileNone None (new_response new_state)) = Ok tt ->
  ready (sample_prepared env).
Proof.
  intros H. unfold sample_prepared. fold new_state.
  destruct (_prepare_fetch env 0%nat FileNone None (new_response new_state))
    as [[[]|e] s1] eqn:Hp; [|discriminate].
  destruct (prepare_fetch_success _ _ _ _ _ _ Hp) as (r & c & Hrest).
  apply Hrest.
Qed.

Lemma transfer_is_decided_in_order_witness :
  ready (sample_prepared sample_env) /\
  fst (_fetch_with_command sample_env (retr_command sample_request)
         (sample_prepared sample_env))
  = fst (transfer_outcome sample_env (retr_command sample_request)
           (trace (sample_prepared sample_env))
           (Response.body (response (sample_prepared sample_env)))).
Proof.
  assert (H : ready (sample_prepared sample_env))
    by (apply sample_prepared_ready; vm_compute; reflexivity).
  split; [exact H|].
  exact (proj1 (transfer_is_decided_in_order sample_env (retr_command sample_request)
                  (sample_prepared sample_env) H)).
Defined.
